(** * pgx: pooled connection handles and pipelined batches

    A shallow embedding of [pgxpool/conn.go] (the handle returned by
    [Pool.Acquire], with [Release] and [Hijack]) and of the batch file of
    package [pgx] ([Batch.Queue], [Send], [ExecResults], [QueryResults],
    [QueryRowResults], [Close], [die]), followed by the properties the
    design document states about them.

    Go pointers to shared objects become explicit state: a handle and the
    pool it points to are threaded through [Release] and [Hijack]; a batch
    carries the connection it points to. Calls that leave the two files
    (puddle's resource operations, the health-check trigger, the
    connection's read and write primitives, the v3 pool's Release) are
    recorded in an event history, so that "is called", "exactly once" and
    "before" are statements about that history. *)

From Stdlib Require Import ZArith Lia Ascii String List Bool.
From stdpp Require Import base option list gmap sets strings.

Local Open Scope Z_scope.

(** ** Machine integers *)

(** Go's [int64] (and [int] on the 64-bit targets pgx is built for) wraps
    around on overflow. *)
Definition wrap64 (z : Z) : Z := (z + 2 ^ 63) mod 2 ^ 64 - 2 ^ 63.

Definition maxInt64 : Z := 2 ^ 63 - 1.

(** ** pgxpool: the acquired-connection handle *)

Module Pgxpool.

(** What [Release] reads of a [*pgx.Conn]: [IsClosed()],
    [PgConn().IsBusy()] and [PgConn().TxStatus()]. *)
Record PgxConn := mkPgxConn {
  connName : nat;
  IsClosed : bool;
  IsBusy : bool;
  TxStatus : ascii
}.

(** A [*puddle.Resource]: its identity in the pool, the [connResource]
    value it carries (reduced to its [conn] field) and its creation time
    in nanoseconds. *)
Record Resource := mkResource {
  resId : nat;
  Value : PgxConn;
  CreationTime : Z
}.

(** Calls that leave [conn.go]. *)
Inductive Event :=
| EvDestroy (r : nat)          (* res.Destroy() *)
| EvRelease (r : nat)          (* res.Release() *)
| EvHijack (r : nat)           (* res.Hijack() *)
| EvTriggerHealthCheck         (* c.p.triggerHealthCheck() *)
| EvAfterRelease (conn : nat). (* c.p.afterRelease(conn) *)

(** The body of the [go func() { ... }()] statement of [Release]
    closes over [conn] and [res]. *)
Record Goroutine := mkGoroutine {
  goConn : PgxConn;
  goRes : Resource
}.

(** The [*Pool] a handle points to, with the part of the puddle pool the
    handle acts on: the resources the pool owns, and among them the idle
    ones, which the next Acquire may hand out. *)
Record Pool := mkPool {
  members : gset nat;
  idle : gset nat;
  lifetimeDestroyCount : Z;
  maxConnLifetime : Z;
  afterRelease : option (PgxConn -> bool);
  healthCheckPending : bool;
  now : Z;
  goroutines : list Goroutine;
  history : list Event
}.

(** [type Conn struct { res *puddle.Resource; p *Pool }]. The pool is
    threaded as state; [res] is [None] for Go's [nil]. *)
Record Conn := mkConn {
  res : option Resource
}.

Definition logEvent (e : Event) (p : Pool) : Pool :=
  mkPool (members p) (idle p) (lifetimeDestroyCount p) (maxConnLifetime p)
         (afterRelease p) (healthCheckPending p) (now p) (goroutines p)
         (history p ++ [e]).

(** puddle: [Destroy] removes the resource from the pool for good. *)
Definition resDestroy (r : Resource) (p : Pool) : Pool :=
  logEvent (EvDestroy (resId r))
    (mkPool (members p ∖ {[resId r]}) (idle p ∖ {[resId r]})
            (lifetimeDestroyCount p) (maxConnLifetime p) (afterRelease p)
            (healthCheckPending p) (now p) (goroutines p) (history p)).

(** puddle: [Release] returns the resource to the idle set. *)
Definition resRelease (r : Resource) (p : Pool) : Pool :=
  logEvent (EvRelease (resId r))
    (mkPool (members p) (idle p ∪ {[resId r]})
            (lifetimeDestroyCount p) (maxConnLifetime p) (afterRelease p)
            (healthCheckPending p) (now p) (goroutines p) (history p)).

(** puddle: [Hijack] detaches the resource without returning it. *)
Definition resHijack (r : Resource) (p : Pool) : Pool :=
  logEvent (EvHijack (resId r))
    (mkPool (members p ∖ {[resId r]}) (idle p ∖ {[resId r]})
            (lifetimeDestroyCount p) (maxConnLifetime p) (afterRelease p)
            (healthCheckPending p) (now p) (goroutines p) (history p)).

(** Modelled from the spec: [Pool.triggerHealthCheck] is not in
    [conn.go]. The design document describes it as a non-blocking,
    coalescing signal: a single pending flag, which a further signal
    leaves set. *)
Definition triggerHealthCheck (p : Pool) : Pool :=
  logEvent EvTriggerHealthCheck
    (mkPool (members p) (idle p) (lifetimeDestroyCount p) (maxConnLifetime p)
            (afterRelease p) true (now p) (goroutines p) (history p)).

(** Modelled from the spec: [Pool.isExpired] is not in [conn.go]. The
    design document: the resource's age exceeds the configured maximum
    lifetime. *)
Definition isExpired (p : Pool) (r : Resource) : bool :=
  Z.ltb (maxConnLifetime p) (now p - CreationTime r).

(** [atomic.AddInt64(&c.p.lifetimeDestroyCount, 1)] *)
Definition addLifetimeDestroyCount (delta : Z) (p : Pool) : Pool :=
  mkPool (members p) (idle p) (wrap64 (lifetimeDestroyCount p + delta))
         (maxConnLifetime p) (afterRelease p) (healthCheckPending p) (now p)
         (goroutines p) (history p).

(** [go f()] *)
Definition spawn (g : Goroutine) (p : Pool) : Pool :=
  mkPool (members p) (idle p) (lifetimeDestroyCount p) (maxConnLifetime p)
         (afterRelease p) (healthCheckPending p) (now p) (goroutines p ++ [g])
         (history p).

(** The condition of the first [if] of [Release]. *)
Definition mustDestroy (conn : PgxConn) : bool :=
  IsClosed conn || IsBusy conn || negb (Ascii.eqb (TxStatus conn) "I"%char).

(** [func (c *Conn) Release()] *)
Definition Release (c : Conn) (p : Pool) : Conn * Pool :=
  match res c with
  | None => (c, p)
  | Some r =>
      let conn := Value r in
      let c' := mkConn None in
      if mustDestroy conn then
        (c', triggerHealthCheck (resDestroy r p))
      else if isExpired p r then
        (c', triggerHealthCheck (resDestroy r (addLifetimeDestroyCount 1 p)))
      else
        match afterRelease p with
        | None => (c', resRelease r p)
        | Some _ => (c', spawn (mkGoroutine conn r) p)
        end
  end.

(** The goroutine started by [Release], run against the pool as it is when
    the scheduler gets to it. [Release] starts it only on the branch where
    [c.p.afterRelease] is not nil; on a pool without a hook the call
    through the nil function value stops the program, which is [None]
    here. *)
Definition runGoroutine (g : Goroutine) (p : Pool) : option Pool :=
  match afterRelease p with
  | None => None
  | Some hook =>
      let p1 := logEvent (EvAfterRelease (connName (goConn g))) p in
      if hook (goConn g) then Some (resRelease (goRes g) p1)
      else Some (triggerHealthCheck (resDestroy (goRes g) p1))
  end.

(** A Go call either returns or panics. *)
Inductive outcome (A : Type) :=
| Returns (a : A)
| Panics (msg : string).
Arguments Returns {A} a.
Arguments Panics {A} msg.

(** [func (c *Conn) Hijack() *pgx.Conn] *)
Definition Hijack (c : Conn) (p : Pool) : outcome PgxConn * Conn * Pool :=
  match res c with
  | None =>
      (Panics "cannot hijack already released or hijacked connection", c, p)
  | Some r =>
      let conn := Value r in
      (Returns conn, mkConn None, resHijack r p)
  end.

(** *** Vocabulary of the properties *)

(** The events a step from [p] to [p'] added to the history. *)
Definition newEvents (p p' : Pool) : list Event :=
  drop (length (history p)) (history p').

(** The goroutines a step from [p] to [p'] started. *)
Definition newGoroutines (p p' : Pool) : list Goroutine :=
  drop (length (goroutines p)) (goroutines p').

(** The three conditions under which a connection must not be reused. *)
Definition unhealthy (conn : PgxConn) : Prop :=
  IsClosed conn = true \/ IsBusy conn = true \/ TxStatus conn <> "I"%char.

Definition healthy (conn : PgxConn) : Prop :=
  IsClosed conn = false /\ IsBusy conn = false /\ TxStatus conn = "I"%char.

(** [Release c p] hands resource [r] back to the idle set: it calls
    [res.Release()] itself, or the goroutine it starts does, whenever that
    goroutine runs (from any pool state [q]). *)
Definition returnsToIdle (c : Conn) (p : Pool) (r : Resource) : Prop :=
  EvRelease (resId r) ∈ newEvents p (snd (Release c p)) \/
  exists g q q',
    g ∈ newGoroutines p (snd (Release c p)) /\
    runGoroutine g q = Some q' /\
    EvRelease (resId r) ∈ newEvents q q'.

(** [n] more calls of Release. *)
Fixpoint ReleaseTimes (n : nat) (c : Conn) (p : Pool) : Conn * Pool :=
  match n with
  | O => (c, p)
  | S n' => let '(c', p') := Release c p in ReleaseTimes n' c' p'
  end.

Definition hijackPanic : string :=
  "cannot hijack already released or hijacked connection".

(** A pool with nothing in it, at time [t]. *)
Definition emptyPool (maxLifetime t : Z) (hook : option (PgxConn -> bool)) : Pool :=
  mkPool ∅ ∅ 0 maxLifetime hook false t [] [].

(** *** The forwarding methods of the handle *)

(** [context.Context] as [deadlineCheck] reads it: [Deadline()] reports a
    deadline, or none. *)
Record Context := mkContext {
  Deadline : option Z
}.

(** [func deadlineCheck(ctx context.Context, sql string)], on the lines
    written to standard output so far. [fmt.Println] puts a space between
    its operands and ends the line. *)
Definition deadlineCheck (ctx : Context) (sql : string) (out : list string)
  : list string :=
  match Deadline ctx with
  | Some _ => out
  | None => out ++ [("No deadline for query " ++ sql)%string]
  end.

(** puddle: [Value] reads the status of its receiver, so on a nil
    [*puddle.Resource] the Go runtime panics with this error. *)
Definition nilDereference : string :=
  "runtime error: invalid memory address or nil pointer dereference".

(** [func (c *Conn) connResource() *connResource]: [c.res.Value()], which
    reads through [c.res]. The [connResource] is reduced to its [conn]
    field. *)
Definition connResource (c : Conn) : outcome PgxConn :=
  match res c with
  | None => Panics nilDereference
  | Some r => Returns (Value r)
  end.

(** [func (c *Conn) Conn() *pgx.Conn] *)
Definition Conn' (c : Conn) : outcome PgxConn := connResource c.

(** The connection is reached through a pointer: what a method of
    [*pgx.Conn] does to it is seen through the resource afterwards. *)
Definition setValue (conn : PgxConn) (c : Conn) : Conn :=
  match res c with
  | None => c
  | Some r => mkConn (Some (mkResource (resId r) conn (CreationTime r)))
  end.

Section Forwarding.

(** The methods of [*pgx.Conn] are outside [conn.go]: each acts on the
    connection and yields its results. *)
Variables Answer Batch Source TxOptions Scans RowFunc TxFunc : Type.
Variable Sanitize : list string -> string.
Variable pgxExec : Context -> string -> list string -> PgxConn -> Answer * PgxConn.
Variable pgxQuery : Context -> string -> list string -> PgxConn -> Answer * PgxConn.
Variable pgxQueryRow : Context -> string -> list string -> PgxConn -> Answer * PgxConn.
Variable pgxQueryFunc :
  Context -> string -> list string -> Scans -> RowFunc -> PgxConn -> Answer * PgxConn.
Variable pgxSendBatch : Context -> Batch -> PgxConn -> Answer * PgxConn.
Variable pgxCopyFrom :
  Context -> list string -> list string -> Source -> PgxConn -> Answer * PgxConn.
Variable pgxBegin : Context -> PgxConn -> Answer * PgxConn.
Variable pgxBeginTx : Context -> TxOptions -> PgxConn -> Answer * PgxConn.
Variable pgxBeginFunc : Context -> TxFunc -> PgxConn -> Answer * PgxConn.
Variable pgxBeginTxFunc : Context -> TxOptions -> TxFunc -> PgxConn -> Answer * PgxConn.
Variable pgxPing : Context -> PgxConn -> Answer * PgxConn.

(** The two statements every forwarding method consists of:
    [deadlineCheck(ctx, label)] and [return c.Conn().method(...)]. *)
Definition forward (ctx : Context) (label : string)
  (method : PgxConn -> Answer * PgxConn) (c : Conn) (out : list string)
  : outcome Answer * Conn * list string :=
  let out' := deadlineCheck ctx label out in
  match Conn' c with
  | Panics msg => (Panics msg, c, out')
  | Returns conn =>
      let '(a, conn') := method conn in
      (Returns a, setValue conn' c, out')
  end.

Definition Exec (ctx : Context) (sql : string) (arguments : list string) :=
  forward ctx sql (pgxExec ctx sql arguments).

Definition Query (ctx : Context) (sql : string) (args : list string) :=
  forward ctx sql (pgxQuery ctx sql args).

Definition QueryRow (ctx : Context) (sql : string) (args : list string) :=
  forward ctx sql (pgxQueryRow ctx sql args).

Definition QueryFunc (ctx : Context) (sql : string) (args : list string)
  (scans : Scans) (f : RowFunc) :=
  forward ctx sql (pgxQueryFunc ctx sql args scans f).

Definition SendBatch (ctx : Context) (b : Batch) :=
  forward ctx "some batch query" (pgxSendBatch ctx b).

Definition CopyFrom (ctx : Context) (tableName columnNames : list string)
  (rowSrc : Source) :=
  forward ctx ("copy from" ++ Sanitize tableName)%string
          (pgxCopyFrom ctx tableName columnNames rowSrc).

Definition Begin (ctx : Context) :=
  forward ctx "begin call" (pgxBegin ctx).

Definition BeginTx (ctx : Context) (txOptions : TxOptions) :=
  forward ctx "begin tx" (pgxBeginTx ctx txOptions).

Definition BeginFunc (ctx : Context) (f : TxFunc) :=
  forward ctx "begin func" (pgxBeginFunc ctx f).

Definition BeginTxFunc (ctx : Context) (txOptions : TxOptions) (f : TxFunc) :=
  forward ctx "begin tx func" (pgxBeginTxFunc ctx txOptions f).

Definition Ping (ctx : Context) :=
  forward ctx "ping" (pgxPing ctx).

End Forwarding.

(** *** Vocabulary of the further properties *)

(** The calls that dispose of a resource: puddle's Destroy and Release. *)
Definition isDisposal (e : Event) : bool :=
  match e with
  | EvDestroy _ | EvRelease _ => true
  | _ => false
  end.

Definition disposals (evs : list Event) : list Event :=
  List.filter isDisposal evs.

(** A sample method of [*pgx.Conn]: it answers the statement and leaves
    the connection inside a transaction. *)
Definition openTransaction (sql : string) (conn : PgxConn) : string * PgxConn :=
  (sql, mkPgxConn (connName conn) (IsClosed conn) (IsBusy conn) "T").

(** Every method of the handle that goes through [c.Conn()] panics on
    handle [c], after its deadline check has run, and leaves the handle as
    it is. *)
Definition methodsPanic (c : Conn) : Prop :=
  Conn' c = Panics nilDereference /\
  forall (Answer Batch Source TxOptions Scans RowFunc TxFunc : Type)
         (ctx : Context) (out : list string),
    (forall m sql args,
       Exec Answer m ctx sql args c out
       = (Panics nilDereference, c, deadlineCheck ctx sql out)) /\
    (forall m sql args,
       Query Answer m ctx sql args c out
       = (Panics nilDereference, c, deadlineCheck ctx sql out)) /\
    (forall m sql args,
       QueryRow Answer m ctx sql args c out
       = (Panics nilDereference, c, deadlineCheck ctx sql out)) /\
    (forall m sql args (scans : Scans) (f : RowFunc),
       QueryFunc Answer Scans RowFunc m ctx sql args scans f c out
       = (Panics nilDereference, c, deadlineCheck ctx sql out)) /\
    (forall m (b : Batch),
       SendBatch Answer Batch m ctx b c out
       = (Panics nilDereference, c, deadlineCheck ctx "some batch query" out)) /\
    (forall sanitize m tableName columnNames (rowSrc : Source),
       CopyFrom Answer Source sanitize m ctx tableName columnNames rowSrc c out
       = (Panics nilDereference, c,
          deadlineCheck ctx ("copy from" ++ sanitize tableName)%string out)) /\
    (forall m,
       Begin Answer m ctx c out
       = (Panics nilDereference, c, deadlineCheck ctx "begin call" out)) /\
    (forall m (txOptions : TxOptions),
       BeginTx Answer TxOptions m ctx txOptions c out
       = (Panics nilDereference, c, deadlineCheck ctx "begin tx" out)) /\
    (forall m (f : TxFunc),
       BeginFunc Answer TxFunc m ctx f c out
       = (Panics nilDereference, c, deadlineCheck ctx "begin func" out)) /\
    (forall m (txOptions : TxOptions) (f : TxFunc),
       BeginTxFunc Answer TxOptions TxFunc m ctx txOptions f c out
       = (Panics nilDereference, c, deadlineCheck ctx "begin tx func" out)) /\
    (forall m,
       Ping Answer m ctx c out
       = (Panics nilDereference, c, deadlineCheck ctx "ping" out)).

End Pgxpool.

(** ** pgx: batches *)

Module Pgx.

(** A Go [error] value: its text, and whether it is a [net.Error] whose
    [Timeout()] is true. The nil error is [None] of [option error]. *)
Record error := mkError {
  errText : string;
  errTimeout : bool
}.

(** [context.Context] as the batch reads it: [Done()] is closed exactly
    when [Err()] is not nil. *)
Record Context := mkContext {
  ctxErr : option error
}.

Definition Oid := Z.
Definition CommandTag := string.

(** A query argument, as far as [appendBind] is concerned: it encodes, or
    encoding it fails. *)
Inductive Arg :=
| Encodable (text : string)
| Unencodable (why : error).

(** [type batchItem struct] *)
Record batchItem := mkBatchItem {
  query : string;
  arguments : list Arg;
  parameterOids : list Oid;
  resultFormatCodes : list Z
}.

(** [*PreparedStatement], the fields [Send] reads. *)
Record PreparedStatement := mkPreparedStatement {
  Name : string;
  ParameterOids : list Oid
}.

(** The write buffer is kept as the sequence of framed frontend messages:
    each [appendX(buf, ...)] of the source adds one. The byte-level framing
    belongs to the message package. *)
Inductive FrontendMessage :=
| Query (sql : string)
| Parse (name sql : string) (oids : list Oid)
| Bind (destinationPortal preparedStatement : string) (oids : list Oid)
       (args : list Arg) (formats : list Z)
| Describe (objectType : ascii) (name : string)
| Execute (portal : string) (maxRows : Z)
| Sync.

Record FieldDescription := mkFieldDescription {
  fieldName : string;
  fieldDataType : Oid
}.

(** [pgproto3.BackendMessage] *)
Inductive BackendMessage :=
| ReadyForQuery (status : ascii)
| CommandComplete (tag : string)
| RowDescription (fields : list FieldDescription)
| ParameterDescription (oids : list Oid)
| ErrorResponse (e : error)
| NoticeResponse (text : string)
| NotificationResponse (channel payload : string)
| ParameterStatus (name value : string)
| ParseComplete
| BindComplete
| NoData
| DataRow (values : list string).

(** What the connection delivers to one [rxMsg] call. *)
Inductive RxItem :=
| RxMsg (m : BackendMessage)
| RxErr (e : error).

(** Calls that leave the batch file and act on the world. *)
Inductive Event :=
| EvWrite (buf : list FrontendMessage)   (* b.conn.conn.Write(buf) *)
| EvEnsureReady                          (* ensureConnectionReadyForQuery *)
| EvConnDie (e : option error)           (* b.conn.die(err) *)
| EvTermContext (opErr : option error)   (* b.conn.termContext(err) *)
| EvPoolRelease (pool : nat).            (* b.connPool.Release(b.conn) *)

(** [*Conn] of package pgx: the fields the batch file touches, the state
    of the socket ([rx]: what the server delivers before the stream ends;
    [writeFault]: how a [Write] fails, if it does; [cancelQueryFault]: how
    waiting for an earlier cancellation fails, if it does) and the history
    of calls. *)
Record Conn := mkConn {
  alive : bool;
  preparedStatements : gmap string PreparedStatement;
  pendingReadyForQueryCount : Z;
  txStatus : ascii;
  ctxInProgress : bool;
  wbuf : list FrontendMessage;
  cancelQueryFault : option error;
  writeFault : option (Z * error);
  rx : list RxItem;
  history : list Event
}.

(** [type Batch struct]. [conn] is a pointer in the source: the batch and
    its connection are one state here. [connPool] is the identity of the
    v3 pool the connection came from, [None] for nil. [ctx] is [None]
    until [Send] stores a context. *)
Record Batch := mkBatch {
  conn : Conn;
  connPool : option nat;
  items : list batchItem;
  resultsRead : Z;
  sent : bool;
  ctx : option Context;
  err : option error
}.

(** A call returns, panics, or the model runs out of the fuel given to a
    [for] loop ([OutOfFuel] is shown below never to happen). *)
Inductive result (A : Type) :=
| Ret (a : A)
| Panic (msg : string)
| OutOfFuel.
Arguments Ret {A} a.
Arguments Panic {A} msg.
Arguments OutOfFuel {A}.

(** *** Field updates *)

Definition setAlive (v : bool) (c : Conn) : Conn :=
  mkConn v (preparedStatements c) (pendingReadyForQueryCount c) (txStatus c)
         (ctxInProgress c) (wbuf c) (cancelQueryFault c) (writeFault c)
         (rx c) (history c).

Definition setPending (v : Z) (c : Conn) : Conn :=
  mkConn (alive c) (preparedStatements c) v (txStatus c)
         (ctxInProgress c) (wbuf c) (cancelQueryFault c) (writeFault c)
         (rx c) (history c).

Definition setTxStatus (v : ascii) (c : Conn) : Conn :=
  mkConn (alive c) (preparedStatements c) (pendingReadyForQueryCount c) v
         (ctxInProgress c) (wbuf c) (cancelQueryFault c) (writeFault c)
         (rx c) (history c).

Definition setCtxInProgress (v : bool) (c : Conn) : Conn :=
  mkConn (alive c) (preparedStatements c) (pendingReadyForQueryCount c)
         (txStatus c) v (wbuf c) (cancelQueryFault c) (writeFault c)
         (rx c) (history c).

Definition setRx (v : list RxItem) (c : Conn) : Conn :=
  mkConn (alive c) (preparedStatements c) (pendingReadyForQueryCount c)
         (txStatus c) (ctxInProgress c) (wbuf c) (cancelQueryFault c)
         (writeFault c) v (history c).

Definition logEvent (e : Event) (c : Conn) : Conn :=
  mkConn (alive c) (preparedStatements c) (pendingReadyForQueryCount c)
         (txStatus c) (ctxInProgress c) (wbuf c) (cancelQueryFault c)
         (writeFault c) (rx c) (history c ++ [e]).

Definition setConn (c : Conn) (b : Batch) : Batch :=
  mkBatch c (connPool b) (items b) (resultsRead b) (sent b) (ctx b) (err b).

Definition setItems (v : list batchItem) (b : Batch) : Batch :=
  mkBatch (conn b) (connPool b) v (resultsRead b) (sent b) (ctx b) (err b).

Definition setResultsRead (v : Z) (b : Batch) : Batch :=
  mkBatch (conn b) (connPool b) (items b) v (sent b) (ctx b) (err b).

Definition setSent (v : bool) (b : Batch) : Batch :=
  mkBatch (conn b) (connPool b) (items b) (resultsRead b) v (ctx b) (err b).

Definition setCtx (v : option Context) (b : Batch) : Batch :=
  mkBatch (conn b) (connPool b) (items b) (resultsRead b) (sent b) v (err b).

Definition setErr (v : option error) (b : Batch) : Batch :=
  mkBatch (conn b) (connPool b) (items b) (resultsRead b) (sent b) (ctx b) v.

(** *** Go statements over a state *)

(** A method with pointer receiver of type [S]: it reads and updates the
    receiver and returns, panics, or runs out of fuel. *)
Definition M (S A : Type) : Type := S -> result A * S.

Definition ret {S A} (a : A) : M S A := fun s => (Ret a, s).

Definition panic {S A} (msg : string) : M S A := fun s => (Panic msg, s).

Definition outOfFuel {S A} : M S A := fun s => (OutOfFuel, s).

Definition bind {S A B} (m : M S A) (k : A -> M S B) : M S B :=
  fun s =>
    match m s with
    | (Ret a, s') => k a s'
    | (Panic msg, s') => (Panic msg, s')
    | (OutOfFuel, s') => (OutOfFuel, s')
    end.

Notation "'let*' x ':=' m 'in' k" := (bind m (fun x => k))
  (at level 10, x pattern, m at level 100, k at level 200).

Notation "m ';;;' k" := (bind m (fun _ => k))
  (at level 100, k at level 200, right associativity).

Definition get {S} : M S S := fun s => (Ret s, s).

Definition modify {S} (f : S -> S) : M S unit := fun s => (Ret tt, f s).

(** [b.conn.f(...)]: a method of the connection called through the
    batch. *)
Definition onConn {A} (m : M Conn A) : M Batch A :=
  fun b => let '(r, c) := m (conn b) in (r, setConn c b).

(** *** The connection's methods used by the batch file

    None of them is defined in the batch file. *)

Definition errUnexpectedEOF : error := mkError "unexpected EOF" false.

(** Modelled from the spec: [Conn.rxMsg] is not in the batch file. The
    design document lists it as the low-level message receive primitive:
    it hands over the next message the server sent, or fails. A read past
    the end of what the server sends fails as on a closed socket. *)
Definition rxMsg : M Conn (BackendMessage + error) :=
  fun c =>
    match rx c with
    | [] => (Ret (inr errUnexpectedEOF), c)
    | RxMsg m :: rest => (Ret (inl m), setRx rest c)
    | RxErr e :: rest => (Ret (inr e), setRx rest c)
    end.

(** Modelled from the spec: [Conn.processContextFreeMsg] is not in the
    batch file. The design document: response messages are consumed
    generically (errors, notices, parameter and status updates), and the
    count of outstanding ReadyForQuery acknowledgements tells how many
    idle markers are still to come: an error response is returned as the
    error, a ReadyForQuery takes one off the count and sets the
    transaction status, every other message is passed over. *)
Definition processContextFreeMsg (msg : BackendMessage) : M Conn (option error) :=
  fun c =>
    match msg with
    | ErrorResponse e => (Ret (Some e), c)
    | ReadyForQuery st =>
        (Ret None,
         setTxStatus st (setPending (wrap64 (pendingReadyForQueryCount c - 1)) c))
    | _ => (Ret None, c)
    end.

(** The loop of [ensureConnectionReadyForQuery]. *)
Fixpoint ensureLoop (fuel : nat) : M Conn (option error) :=
  match fuel with
  | O => outOfFuel
  | S n =>
      let* c := get in
      if 0 <? pendingReadyForQueryCount c then
        let* r := rxMsg in
        match r with
        | inr e => ret (Some e)
        | inl msg =>
            let* e := processContextFreeMsg msg in
            match e with
            | Some e => ret (Some e)
            | None => ensureLoop n
            end
        end
      else ret None
  end.

(** Modelled from the spec: [Conn.ensureConnectionReadyForQuery] is not in
    the batch file. The design document: it ensures that the connection is
    in a ready-for-query idle state and fails if it is not; the count of
    outstanding acknowledgements says how many idle markers to expect
    before the connection is usable again. It reads until none is
    outstanding. *)
Definition ensureConnectionReadyForQuery : M Conn (option error) :=
  modify (logEvent EvEnsureReady);;;
  let* c := get in
  ensureLoop (S (length (rx c))).

(** Modelled from the spec: [Conn.waitForPreviousCancelQuery] is not in
    the batch file. The design document: it waits for a cancellation still
    in flight from an earlier operation on the connection. Whether that
    wait fails is part of the state of the world. *)
Definition waitForPreviousCancelQuery (ctx0 : Context) : M Conn (option error) :=
  fun c => (Ret (cancelQueryFault c), c).

Definition errCtxInProgress : error := mkError "ctx already in progress" false.

(** Modelled from the spec: [Conn.initContext] and [Conn.termContext] are
    not in the batch file, and the design document says of them only that
    the context given to Send is in effect until the batch is closed.
    [initContext] puts a context in effect and fails when one already is;
    [termContext] ends it and hands back the error of the operation. *)
Definition initContext (ctx0 : Context) : M Conn (option error) :=
  fun c =>
    if ctxInProgress c then (Ret (Some errCtxInProgress), c)
    else (Ret None, setCtxInProgress true c).

Definition termContext (opErr : option error) : M Conn (option error) :=
  fun c => (Ret opErr, logEvent (EvTermContext opErr) (setCtxInProgress false c)).

(** Modelled from the spec: [Conn.die] is not in the batch file. The
    design document: it marks the underlying connection dead. *)
Definition connDie (e : option error) : M Conn unit :=
  modify (fun c => logEvent (EvConnDie e) (setAlive false c)).

(** [b.conn.conn.Write(buf)]: the bytes go out, or the write fails as the
    state of the socket says, after [n] bytes. *)
Definition connWrite (buf : list FrontendMessage) : M Conn (Z * option error) :=
  fun c =>
    let c' := logEvent (EvWrite buf) c in
    match writeFault c with
    | None => (Ret (Z.of_nat (length buf), None), c')
    | Some (n, e) => (Ret (n, Some e), c')
    end.

(** Modelled from the spec: [fatalWriteErr] is not in the batch file. The
    design document: a write failure classified as fatal, such as a
    severed connection. A failure that wrote part of the buffer, or is not
    a timeout, is fatal. *)
Definition fatalWriteErr (n : Z) (e : error) : bool :=
  (0 <? n) || negb (errTimeout e).

(** The loop of [readUntilRowDescription]. *)
Fixpoint rowDescriptionLoop (fuel : nat)
  : M Conn (list FieldDescription * option error) :=
  match fuel with
  | O => outOfFuel
  | S n =>
      let* r := rxMsg in
      match r with
      | inr e => ret ([], Some e)
      | inl (ParameterDescription _) => rowDescriptionLoop n
      | inl (RowDescription fields) => ret (fields, None)
      | inl msg =>
          let* e := processContextFreeMsg msg in
          match e with
          | Some e => ret ([], Some e)
          | None => rowDescriptionLoop n
          end
      end
  end.

(** Modelled from the spec: [Conn.readUntilRowDescription] is not in the
    batch file. The design document: it reads through to a
    row-description message. *)
Definition readUntilRowDescription
  : M Conn (list FieldDescription * option error) :=
  let* c := get in
  rowDescriptionLoop (S (length (rx c))).

(** *** Message framing: one frontend message per call *)

Definition appendQuery (buf : list FrontendMessage) (sql : string) :=
  buf ++ [Query sql].

Definition appendParse (buf : list FrontendMessage) (name sql : string)
  (oids : list Oid) :=
  buf ++ [Parse name sql oids].

Definition appendDescribe (buf : list FrontendMessage) (objectType : ascii)
  (name : string) :=
  buf ++ [Describe objectType name].

Definition appendExecute (buf : list FrontendMessage) (portal : string)
  (maxRows : Z) :=
  buf ++ [Execute portal maxRows].

Definition appendSync (buf : list FrontendMessage) := buf ++ [Sync].

(** The first argument that does not encode, if any. *)
Fixpoint encodeFault (args : list Arg) : option error :=
  match args with
  | [] => None
  | Encodable _ :: rest => encodeFault rest
  | Unencodable e :: _ => Some e
  end.

(** [appendBind] returns the buffer with the Bind message, or the error of
    encoding an argument (and then the nil buffer). *)
Definition appendBind (buf : list FrontendMessage)
  (destinationPortal preparedStatement : string) (oids : list Oid)
  (args : list Arg) (formats : list Z)
  : list FrontendMessage * option error :=
  match encodeFault args with
  | Some e => ([], Some e)
  | None =>
      (buf ++ [Bind destinationPortal preparedStatement oids args formats],
       None)
  end.

(** [*TxOptions], by the statement its [beginSQL()] yields. *)
Record TxOptions := mkTxOptions {
  beginSQL : string
}.

(** *** The batch file *)

(** [func (c *Conn) BeginBatch() *Batch] *)
Definition BeginBatch (c : Conn) : Batch :=
  mkBatch c None [] 0 false None None.

(** [func (b *Batch) Queue(query, arguments, parameterOids,
    resultFormatCodes)] *)
Definition Queue (sql : string) (args : list Arg) (oids : list Oid)
  (formats : list Z) : M Batch unit :=
  modify (fun b => setItems (items b ++ [mkBatchItem sql args oids formats]) b).

(** [if b.conn != nil && b.connPool != nil { b.connPool.Release(b.conn) }].
    Where the source has this statement, the line before it has called a
    method of [b.conn] that reads the connection's fields, so [b.conn] is
    not nil there. *)
Definition releaseToPool : M Batch unit :=
  fun b =>
    match connPool b with
    | Some pool => (Ret tt, setConn (logEvent (EvPoolRelease pool) (conn b)) b)
    | None => (Ret tt, b)
    end.

(** [func (b *Batch) die(err error)] *)
Definition die (e : option error) : M Batch unit :=
  let* b := get in
  match err b with
  | Some _ => ret tt
  | None =>
      modify (setErr e);;;
      onConn (connDie e);;;
      releaseToPool
  end.

(** The [for _, bi := range b.items] loop of [Send], from the buffer built
    so far: the buffer with the steps of all items, or the error of the
    first Bind that fails. *)
Fixpoint appendItems (c : Conn) (buf : list FrontendMessage)
  (its : list batchItem) : list FrontendMessage * option error :=
  match its with
  | [] => (buf, None)
  | bi :: rest =>
      let '(psName, psParameterOids, buf1) :=
        match preparedStatements c !! query bi with
        | Some ps => (Name ps, ParameterOids ps, buf)
        | None =>
            (EmptyString, parameterOids bi,
             appendParse buf "" (query bi) (parameterOids bi))
        end in
      match appendBind buf1 "" psName psParameterOids (arguments bi)
                       (resultFormatCodes bi) with
      | (_, Some e) => ([], Some e)
      | (buf2, None) =>
          let buf3 := appendDescribe buf2 "P" "" in
          let buf4 := appendExecute buf3 "" 0 in
          appendItems c buf4 rest
      end
  end.

(** The final [for] loop of [Send]. *)
Fixpoint sendLoop (fuel : nat) : M Conn (option error) :=
  match fuel with
  | O => outOfFuel
  | S n =>
      let* r := rxMsg in
      match r with
      | inr e => ret (Some e)
      | inl (ReadyForQuery _) => ret None
      | inl msg =>
          let* e := processContextFreeMsg msg in
          match e with
          | Some e => ret (Some e)
          | None => sendLoop n
          end
      end
  end.

(** [func (b *Batch) Send(ctx context.Context, txOptions *TxOptions) error] *)
Definition Send (ctx0 : Context) (txOptions : TxOptions)
  : M Batch (option error) :=
  let* b := get in
  match err b with
  | Some e => ret (Some e)
  | None =>
      modify (setCtx (Some ctx0));;;
      let* e := onConn (waitForPreviousCancelQuery ctx0) in
      match e with
      | Some e => ret (Some e)
      | None =>
      let* e := onConn ensureConnectionReadyForQuery in
      match e with
      | Some e => ret (Some e)
      | None =>
      let* e := onConn (initContext ctx0) in
      match e with
      | Some e => ret (Some e)
      | None =>
      let* b := get in
      let buf := appendQuery (wbuf (conn b)) (beginSQL txOptions) in
      match appendItems (conn b) buf (items b) with
      | (_, Some e) => ret (Some e)
      | (buf, None) =>
      let buf := appendSync buf in
      let buf := appendQuery buf "commit" in
      let* (n, e) := onConn (connWrite buf) in
      match e with
      | Some e =>
          (if fatalWriteErr n e then onConn (connDie (Some e)) else ret tt);;;
          ret (Some e)
      | None =>
      onConn (modify (fun c =>
        setPending (wrap64 (pendingReadyForQueryCount c + 2)) c));;;
      modify (setSent true);;;
      let* b := get in
      onConn (sendLoop (S (length (rx (conn b)))))
      end end end end end
  end.

(** The [for] loop of [ExecResults]. *)
Fixpoint execLoop (fuel : nat) : M Conn (CommandTag * option error) :=
  match fuel with
  | O => outOfFuel
  | S n =>
      let* r := rxMsg in
      match r with
      | inr e => ret (EmptyString, Some e)
      | inl (CommandComplete tag) => ret (tag, None)
      | inl msg =>
          let* e := processContextFreeMsg msg in
          match e with
          | Some e => ret (EmptyString, Some e)
          | None => execLoop n
          end
      end
  end.

(** [b.ctx.Done()] on the nil interface value that [b.ctx] is before
    [Send]. *)
Definition nilContext : string :=
  "invalid memory address or nil pointer dereference".

(** [func (b *Batch) ExecResults()], which returns a [CommandTag] and an
    error. *)
Definition ExecResults : M Batch (CommandTag * option error) :=
  let* b := get in
  match err b with
  | Some e => ret (EmptyString, Some e)
  | None =>
      match ctx b with
      | None => panic nilContext
      | Some cx =>
          match ctxErr cx with
          | Some e =>
              die (ctxErr cx);;;
              ret (EmptyString, ctxErr cx)
          | None =>
              modify (fun b => setResultsRead (wrap64 (resultsRead b + 1)) b);;;
              let* b := get in
              onConn (execLoop (S (length (rx (conn b)))))
          end
      end
  end.

(** [*Rows], the fields [QueryResults] sets; [rows.batch] is the batch
    itself. A [*Row] is a [*Rows] under another name. *)
Record Rows := mkRows {
  rowsSQL : string;
  rowsFields : list FieldDescription
}.

Definition Row := Rows.

(** [b.conn.getRows(sql, nil)] *)
Definition getRows (sql : string) : Rows := mkRows sql [].

(** [func (b *Batch) QueryResults()], which returns a [*Rows] and an
    error; the nil [*Rows] is [None]. *)
Definition QueryResults : M Batch (option Rows * option error) :=
  let* b := get in
  match err b with
  | Some e => ret (None, Some e)
  | None =>
      match ctx b with
      | None => panic nilContext
      | Some cx =>
          match ctxErr cx with
          | Some e =>
              die (ctxErr cx);;;
              ret (None, ctxErr cx)
          | None =>
              modify (fun b => setResultsRead (wrap64 (resultsRead b + 1)) b);;;
              let rows := getRows "batch query" in
              let* (fieldDescriptions, e) := onConn readUntilRowDescription in
              match e with
              | Some e =>
                  die (ctxErr cx);;;
                  ret (None, Some e)
              | None =>
                  ret (Some (mkRows (rowsSQL rows) fieldDescriptions), None)
              end
          end
      end
  end.

(** [func (b *Batch) QueryRowResults() *Row] *)
Definition QueryRowResults : M Batch (option Row) :=
  let* (rows, _) := QueryResults in
  ret rows.

(** The loop [for i := b.resultsRead; i < len(b.items); i++] of [Close],
    from [i] on. The counter stays below the length of a slice, so [i++]
    does not overflow. *)
Fixpoint closeLoop (fuel : nat) (i : Z) : M Batch (option error) :=
  match fuel with
  | O => outOfFuel
  | S n =>
      let* b := get in
      if i <? Z.of_nat (length (items b)) then
        let* (_, e) := ExecResults in
        match e with
        | Some e => ret (Some e)
        | None => closeLoop n (i + 1)
        end
      else ret None
  end.

(** The statements of [Close] after the [defer]. *)
Definition closeBody : M Batch (option error) :=
  let* b := get in
  let* e := closeLoop (S (Z.to_nat (Z.of_nat (length (items b)) - resultsRead b)))
                      (resultsRead b) in
  match e with
  | Some e => ret (Some e)
  | None =>
      let* e := onConn ensureConnectionReadyForQuery in
      match e with
      | Some e => ret (Some e)
      | None => ret None
      end
  end.

(** The function deferred by [Close], given the value of the named result
    [err] when it runs. *)
Definition closeDeferred (e : option error) : M Batch (option error) :=
  let* e' := onConn (termContext e) in
  releaseToPool;;;
  ret e'.

(** [func (b *Batch) Close() (err error)]. The deferred function runs when
    the body returns and when it panics; in a panic the named result is
    still nil, because the loop goes on only while it is. *)
Definition Close : M Batch (option error) :=
  fun b =>
    match err b with
    | Some e => (Ret (Some e), b)
    | None =>
        match closeBody b with
        | (Ret e, b1) => closeDeferred e b1
        | (Panic msg, b1) =>
            let '(_, b2) := closeDeferred None b1 in (Panic msg, b2)
        | (OutOfFuel, b1) => (OutOfFuel, b1)
        end
    end.

(** *** Vocabulary of the properties *)

(** The events a step from connection state [c] to [c'] added to the
    history. *)
Definition newEvents (c c' : Conn) : list Event :=
  drop (length (history c)) (history c').

(** The transmissions among some events. *)
Definition writes (evs : list Event) : list (list FrontendMessage) :=
  omap (fun e => match e with EvWrite buf => Some buf | _ => None end) evs.

(** The steps the design document lists for one queued item, given the
    connection's cache of prepared statements: Parse unless the statement
    text is cached (then the cached name and parameter types are used),
    Bind with the item's arguments and result formats, Describe, Execute
    without a row limit. *)
Definition itemSteps (cache : gmap string PreparedStatement) (bi : batchItem)
  : list FrontendMessage :=
  match cache !! query bi with
  | Some ps =>
      [Bind "" (Name ps) (ParameterOids ps) (arguments bi) (resultFormatCodes bi);
       Describe "P" ""; Execute "" 0]
  | None =>
      [Parse "" (query bi) (parameterOids bi);
       Bind "" "" (parameterOids bi) (arguments bi) (resultFormatCodes bi);
       Describe "P" ""; Execute "" 0]
  end.

(** The transmission the design document describes for a batch. *)
Definition transmission (cache : gmap string PreparedStatement)
  (begin : string) (its : list batchItem) : list FrontendMessage :=
  [Query begin] ++ concat (map (itemSteps cache) its) ++ [Sync; Query "commit"].

(** [c'] differs from [c] at most in what reading messages changes: the
    messages still to come, the count of outstanding acknowledgements and
    the transaction status. *)
Definition readsOnly (c c' : Conn) : Prop :=
  alive c' = alive c /\
  preparedStatements c' = preparedStatements c /\
  ctxInProgress c' = ctxInProgress c /\
  wbuf c' = wbuf c /\
  cancelQueryFault c' = cancelQueryFault c /\
  writeFault c' = writeFault c /\
  history c' = history c /\
  (length (rx c') <= length (rx c))%nat.

(** Reading until a ReadyForQuery is seen, as the design document
    describes the end of Send, on the messages to come: the error if the
    read fails, the stream ends or an error response arrives first, and
    what is left of the stream. *)
Fixpoint consumeUntilReady (script : list RxItem) : option error * list RxItem :=
  match script with
  | [] => (Some errUnexpectedEOF, [])
  | RxErr e :: rest => (Some e, rest)
  | RxMsg (ReadyForQuery _) :: rest => (None, rest)
  | RxMsg (ErrorResponse e) :: rest => (Some e, rest)
  | RxMsg _ :: rest => consumeUntilReady rest
  end.

(** A message that the end of Send passes over. *)
Definition passedOver (it : RxItem) : Prop :=
  match it with
  | RxErr _ => False
  | RxMsg (ReadyForQuery _) => False
  | RxMsg (ErrorResponse _) => False
  | RxMsg _ => True
  end.

(** The calls [die] makes. *)
Definition dieEvent (e : Event) : Prop :=
  match e with
  | EvConnDie _ | EvPoolRelease _ => True
  | _ => False
  end.

(** The history of [c'] continues that of [c], with calls made by [die]
    only. *)
Definition extends (c c' : Conn) : Prop :=
  exists evs, history c' = history c ++ evs /\ Forall dieEvent evs.

(** The call of the pool's Release, if the batch has a pool. *)
Definition releaseEvents (b : Batch) : list Event :=
  match connPool b with
  | Some pool => [EvPoolRelease pool]
  | None => []
  end.

(** ExecResults called [n] times in a row by a caller that stops at the
    first call that fails. *)
Fixpoint execTimes (n : nat) : M Batch (option error) :=
  match n with
  | O => ret None
  | S n' =>
      let* (_, e) := ExecResults in
      match e with
      | Some e => ret (Some e)
      | None => execTimes n'
      end
  end.

(** *** The claims that do not hold as they are worded *)

(** Send fails while reading the answers only with the batch not marked
    as sent. *)
Definition sentOnlyWhenReady (ctx0 : Context) (tx : TxOptions) (b : Batch) : Prop :=
  forall e, fst (Send ctx0 tx b) = Ret (Some e) ->
            sent (snd (Send ctx0 tx b)) = false.

(** Close always moves the cursor to the end of the queue and then checks
    that the connection is ready. *)
Definition closeConsumesAndVerifies (b : Batch) : Prop :=
  resultsRead (snd (Close b)) = Z.of_nat (length (items b)) /\
  EvEnsureReady ∈ newEvents (conn b) (conn (snd (Close b))).

(** Close always hands the connection of a pool-managed batch to the
    pool. *)
Definition closeAlwaysReleases (b : Batch) : Prop :=
  forall pool, connPool b = Some pool ->
    EvPoolRelease pool ∈ newEvents (conn b) (conn (snd (Close b))).


(** ExecResults fails once every queued item has been read. *)
Definition overReadFails (b : Batch) : Prop :=
  Z.of_nat (length (items b)) <= resultsRead b ->
  forall tag, fst (ExecResults b) <> Ret (tag, None).

(** *** Sample states *)

Definition sampleCache : gmap string PreparedStatement :=
  {[ "select 1"%string := mkPreparedStatement "ps1" [] ]}.

(** An idle connection that is about to receive [script]. *)
Definition idleConn (script : list RxItem) : Conn :=
  mkConn true sampleCache 0 "I" false [] None None script [].

(** One statement that is prepared on the connection and one that is
    not. *)
Definition sampleItems : list batchItem :=
  [mkBatchItem "select 1" [] [] [1];
   mkBatchItem "insert into t values ($1)" [Encodable "7"] [23] []].

(** What the server answers to the sample batch: to begin, to each item,
    to Sync and to commit. *)
Definition sampleAnswers : list RxItem :=
  [RxMsg (CommandComplete "BEGIN"); RxMsg (ReadyForQuery "T");
   RxMsg BindComplete; RxMsg (RowDescription [mkFieldDescription "?column?" 23]);
   RxMsg (DataRow ["1"%string]); RxMsg (CommandComplete "SELECT 1");
   RxMsg ParseComplete; RxMsg BindComplete; RxMsg NoData;
   RxMsg (CommandComplete "INSERT 0 1");
   RxMsg (ReadyForQuery "T");
   RxMsg (CommandComplete "COMMIT"); RxMsg (ReadyForQuery "I")].

(** A batch of the sample items from pool 1, not sent yet. *)
Definition sampleBatch (script : list RxItem) : Batch :=
  mkBatch (idleConn script) (Some 1%nat) sampleItems 0 false None None.

Definition background : Context := mkContext None.

Definition plainBegin : TxOptions := mkTxOptions "begin".

Definition errReset : error := mkError "connection reset by peer" false.

Definition errCanceled : error := mkError "context canceled" false.

(** The sample batch after Send, when the server sends [script]. *)
Definition sentSample (script : list RxItem) : Batch :=
  snd (Send background plainBegin (sampleBatch script)).

(** The server answers to begin, and then the connection breaks. *)
Definition brokenAnswers : list RxItem :=
  [RxMsg (CommandComplete "BEGIN"); RxMsg (ReadyForQuery "T"); RxErr errReset].

(** The caller cancels the context of a batch. *)
Definition cancelled (b : Batch) : Batch :=
  setCtx (Some (mkContext (Some errCanceled))) b.

(** *** Vocabulary of the further properties *)

(** [Queue] called for each of [its] in turn. *)
Fixpoint QueueAll (its : list batchItem) : M Batch unit :=
  match its with
  | [] => ret tt
  | bi :: rest =>
      Queue (query bi) (arguments bi) (parameterOids bi) (resultFormatCodes bi);;;
      QueueAll rest
  end.

(** The error of the first argument, in queue order, that does not
    encode. *)
Fixpoint firstFault (its : list batchItem) : option error :=
  match its with
  | [] => None
  | bi :: rest =>
      match encodeFault (arguments bi) with
      | Some e => Some e
      | None => firstFault rest
      end
  end.

(** A message that the loop of ExecResults passes over. *)
Definition quiet (m : BackendMessage) : Prop :=
  match m with
  | CommandComplete _ | ErrorResponse _ => False
  | _ => True
  end.

(** What the messages that ExecResults passes over leave on the
    connection: each ReadyForQuery among them takes one off the count of
    outstanding acknowledgements and sets the transaction status. *)
Fixpoint absorb (msgs : list BackendMessage) (c : Conn) : Conn :=
  match msgs with
  | [] => c
  | ReadyForQuery st :: rest =>
      absorb rest
        (setTxStatus st (setPending (wrap64 (pendingReadyForQueryCount c - 1)) c))
  | _ :: rest => absorb rest c
  end.

(** ExecResults called [n] times in a row, collecting the command tags,
    by a caller that stops at the first call that fails. *)
Fixpoint execTags (n : nat) : M Batch (list CommandTag * option error) :=
  match n with
  | O => ret ([], None)
  | S n' =>
      let* (tag, e) := ExecResults in
      match e with
      | Some e => ret ([], Some e)
      | None =>
          let* (tags, e') := execTags n' in
          ret (tag :: tags, e')
      end
  end.

(** The answer of the server to one item that completes: messages that
    ExecResults passes over, then the command completion with its tag. *)
Definition itemAnswer (a : list BackendMessage * CommandTag) : list RxItem :=
  map RxMsg (fst a) ++ [RxMsg (CommandComplete (snd a))].

(** The answers of the server to a batch all of whose items complete:
    the answer to begin, ending in a ReadyForQuery; the answers to the
    items; the ReadyForQuery of Sync; the completion of commit and its
    ReadyForQuery. *)
Definition batchAnswers (toBegin : list RxItem) (st0 : ascii)
  (answers : list (list BackendMessage * CommandTag)) (st1 : ascii)
  (commitTag : CommandTag) (st2 : ascii) : list RxItem :=
  toBegin ++ [RxMsg (ReadyForQuery st0)] ++
  concat (map itemAnswer answers) ++
  [RxMsg (ReadyForQuery st1); RxMsg (CommandComplete commitTag);
   RxMsg (ReadyForQuery st2)].

(** A message that belongs to the answer to one item and says nothing
    about the state of the connection. *)
Definition plain (m : BackendMessage) : Prop :=
  match m with
  | CommandComplete _ | ErrorResponse _ | ReadyForQuery _ => False
  | _ => True
  end.

(** The cursor after [n] reads. *)
Fixpoint advance (n : nat) (k : Z) : Z :=
  match n with
  | O => k
  | S n' => advance n' (wrap64 (k + 1))
  end.



(** A timeout that wrote nothing, and the same connection with a write
    that fails that way. *)
Definition errTimedOut : error := mkError "i/o timeout" true.

Definition withWriteFault (n : Z) (e : error) (c : Conn) : Conn :=
  mkConn (alive c) (preparedStatements c) (pendingReadyForQueryCount c)
         (txStatus c) (ctxInProgress c) (wbuf c) (cancelQueryFault c)
         (Some (n, e)) (rx c) (history c).

End Pgx.
(** * Properties *)

Lemma wrap64_small z : - 2 ^ 63 <= z <= maxInt64 -> wrap64 z = z.
Proof.
  unfold wrap64, maxInt64. intros H.
  rewrite Z.mod_small; lia.
Qed.

Lemma drop_length_app {A} (l k : list A) : drop (length l) (l ++ k) = k.
Proof. by rewrite drop_app_length. Qed.

(** Membership in an explicit list of events, none of which is the one
    looked for. *)
Ltac absent_from_list H :=
  repeat (apply elem_of_cons in H as [H | H]; [discriminate H |]);
  apply elem_of_nil in H; contradiction.

(** ** The handle: Release and Hijack *)

Module PoolProps.
Import Pgxpool.

Lemma mustDestroy_unhealthy conn : mustDestroy conn = true <-> unhealthy conn.
Proof.
  unfold mustDestroy, unhealthy.
  destruct (IsClosed conn), (IsBusy conn),
    (Ascii.eqb_spec (TxStatus conn) "I"); cbn; intuition congruence.
Qed.

Lemma mustDestroy_healthy conn : mustDestroy conn = false <-> healthy conn.
Proof.
  unfold mustDestroy, healthy.
  destruct (IsClosed conn), (IsBusy conn),
    (Ascii.eqb_spec (TxStatus conn) "I"); cbn; intuition congruence.
Qed.

Lemma healthy_not_unhealthy conn : healthy conn -> ~ unhealthy conn.
Proof.
  intros Hh Hu. apply mustDestroy_healthy in Hh. apply mustDestroy_unhealthy in Hu.
  congruence.
Qed.

(** What a started goroutine can do, wherever it runs: it calls the hook,
    and then returns its own resource or destroys it. *)
Lemma runGoroutine_events g q q' :
  runGoroutine g q = Some q' ->
  newEvents q q' = [EvAfterRelease (connName (goConn g)); EvRelease (resId (goRes g))] \/
  newEvents q q' = [EvAfterRelease (connName (goConn g)); EvDestroy (resId (goRes g));
                    EvTriggerHealthCheck].
Proof.
  unfold runGoroutine, newEvents. destruct (afterRelease q) as [hook|]; [|discriminate].
  destruct (hook (goConn g)); intros [= <-]; simpl.
  - left. rewrite <- app_assoc. apply drop_length_app.
  - right. rewrite <- !app_assoc. apply drop_length_app.
Qed.

Lemma not_elem_of_removed (x : nat) (X : gset nat) : x ∉ X ∖ {[x]}.
Proof.
  intros H. apply elem_of_difference in H as [_ H].
  apply H, elem_of_singleton. reflexivity.
Qed.

(** C1. Release on a handle whose connection is closed, or busy, or not
    in transaction status 'I' destroys the resource (it leaves the pool and
    its idle set, no goroutine that could return it is started) and signals
    the health check; consequently a resource that Release returns to the
    idle set, at once or through the goroutine it starts, has a connection
    that is not closed, not busy and in transaction status 'I'. *)
Theorem Release_unhealthy_destroys (c : Conn) (p : Pool) (r : Resource) :
  res c = Some r ->
  (unhealthy (Value r) ->
     res (fst (Release c p)) = None /\
     newEvents p (snd (Release c p)) = [EvDestroy (resId r); EvTriggerHealthCheck] /\
     newGoroutines p (snd (Release c p)) = [] /\
     ~ resId r ∈ members (snd (Release c p)) /\
     ~ resId r ∈ idle (snd (Release c p)) /\
     healthCheckPending (snd (Release c p)) = true) /\
  (returnsToIdle c p r -> healthy (Value r)).
Proof.
  intros Hres. split.
  - intros Hu. apply mustDestroy_unhealthy in Hu.
    unfold Release. rewrite Hres, Hu. cbn.
    unfold newEvents, newGoroutines. cbn.
    rewrite <- app_assoc, drop_length_app, drop_all.
    repeat split; auto using not_elem_of_removed.
  - intros Hret. apply mustDestroy_healthy.
    destruct (mustDestroy (Value r)) eqn:Hm; [exfalso | reflexivity].
    unfold returnsToIdle, Release in Hret. rewrite Hres, Hm in Hret. cbn in Hret.
    unfold newEvents, newGoroutines in Hret. cbn in Hret.
    rewrite <- app_assoc, drop_length_app, drop_all in Hret.
    destruct Hret as [Hin | (g & q & q' & Hg & _)].
    + absent_from_list Hin.
    + apply elem_of_nil in Hg. contradiction.
Qed.

Lemma Release_unhealthy_destroys_witness :
  newEvents (emptyPool 3600 100 None)
    (snd (Release (mkConn (Some (mkResource 1 (mkPgxConn 1 false true "I") 0)))
                  (emptyPool 3600 100 None)))
  = [EvDestroy 1; EvTriggerHealthCheck] /\
  healthy (mkPgxConn 2 false false "I").
Proof.
  split.
  - apply (proj1 (Release_unhealthy_destroys
                    (mkConn (Some (mkResource 1 (mkPgxConn 1 false true "I") 0)))
                    (emptyPool 3600 100 None)
                    (mkResource 1 (mkPgxConn 1 false true "I") 0) eq_refl)).
    right; left; reflexivity.
  - apply (proj2 (Release_unhealthy_destroys
                    (mkConn (Some (mkResource 2 (mkPgxConn 2 false false "I") 0)))
                    (emptyPool 3600 100 None)
                    (mkResource 2 (mkPgxConn 2 false false "I") 0) eq_refl)).
    left. cbn. apply list_elem_of_here.
Defined.

(** C2. Release on a handle whose connection is healthy but whose
    resource has expired adds exactly 1 to the lifetime-destroy counter,
    destroys the resource and signals the health check; the resource is
    not returned to the idle set, and the post-release hook is neither
    called nor scheduled. *)
Theorem Release_expired_destroys (c : Conn) (p : Pool) (r : Resource) :
  res c = Some r ->
  healthy (Value r) ->
  isExpired p r = true ->
  - 2 ^ 63 <= lifetimeDestroyCount p < maxInt64 ->
  lifetimeDestroyCount (snd (Release c p)) = lifetimeDestroyCount p + 1 /\
  newEvents p (snd (Release c p)) = [EvDestroy (resId r); EvTriggerHealthCheck] /\
  newGoroutines p (snd (Release c p)) = [] /\
  ~ resId r ∈ members (snd (Release c p)) /\
  ~ resId r ∈ idle (snd (Release c p)) /\
  healthCheckPending (snd (Release c p)) = true /\
  ~ returnsToIdle c p r.
Proof.
  intros Hres Hh Hexp Hcount. apply mustDestroy_healthy in Hh.
  assert (Hrel : Release c p =
            (mkConn None, triggerHealthCheck (resDestroy r (addLifetimeDestroyCount 1 p)))).
  { unfold Release. rewrite Hres, Hh. cbn. unfold isExpired in Hexp |- *. cbn.
    rewrite Hexp. reflexivity. }
  unfold returnsToIdle. rewrite Hrel. cbn.
  unfold newEvents, newGoroutines. cbn.
  rewrite <- app_assoc, drop_length_app, drop_all.
  split; [apply wrap64_small; unfold maxInt64 in *; lia |].
  repeat split; auto using not_elem_of_removed.
  intros [Hin | (g & q & q' & Hg & _)].
  - absent_from_list Hin.
  - apply elem_of_nil in Hg. contradiction.
Qed.

Lemma Release_expired_destroys_witness :
  lifetimeDestroyCount
    (snd (Release (mkConn (Some (mkResource 1 (mkPgxConn 1 false false "I") 0)))
                  (emptyPool 3600 5000 (Some (fun _ => true)))))
  = 0 + 1.
Proof.
  apply (Release_expired_destroys
           (mkConn (Some (mkResource 1 (mkPgxConn 1 false false "I") 0)))
           (emptyPool 3600 5000 (Some (fun _ => true)))
           (mkResource 1 (mkPgxConn 1 false false "I") 0)).
  - reflexivity.
  - repeat split.
  - reflexivity.
  - cbn. unfold maxInt64. lia.
Defined.

(** On a handle whose reference is cleared, Release changes nothing and
    Hijack panics. *)
Lemma cleared_handle_inert (c : Conn) (p : Pool) :
  res c = None ->
  Release c p = (c, p) /\ Hijack c p = (Panics hijackPanic, c, p).
Proof.
  intros H. unfold Release, Hijack. rewrite H. split; reflexivity.
Qed.

Lemma Release_clears (c : Conn) (p : Pool) : res (fst (Release c p)) = None.
Proof.
  unfold Release. destruct (res c) as [r|] eqn:Hres; [|exact Hres].
  destruct (mustDestroy (Value r)); [reflexivity|].
  destruct (isExpired p r); [reflexivity|].
  destruct (afterRelease p); reflexivity.
Qed.

Lemma Hijack_clears (c : Conn) (p : Pool) : res (snd (fst (Hijack c p))) = None.
Proof.
  unfold Hijack. destruct (res c) as [r|] eqn:Hres; [reflexivity | exact Hres].
Qed.

Lemma ReleaseTimes_cleared n c p : res c = None -> ReleaseTimes n c p = (c, p).
Proof.
  intros H. induction n as [|n IH]; [reflexivity|].
  cbn. destruct (cleared_handle_inert c p H) as [-> _]. exact IH.
Qed.

(** C3. A handle leaves the acquired state at most once: after a Release
    or a Hijack, a further Release, and any number of them, changes
    neither the handle nor the pool (so Release twice is Release once),
    and a further Hijack panics, again without changing anything. *)
Theorem Release_Hijack_at_most_once (c : Conn) (p : Pool) :
  (forall c1 p1, Release c p = (c1, p1) ->
     Release c1 p1 = (c1, p1) /\
     (forall n, ReleaseTimes n c1 p1 = (c1, p1)) /\
     Hijack c1 p1 = (Panics hijackPanic, c1, p1)) /\
  (forall o c1 p1, Hijack c p = (o, c1, p1) ->
     Release c1 p1 = (c1, p1) /\
     (forall n, ReleaseTimes n c1 p1 = (c1, p1)) /\
     Hijack c1 p1 = (Panics hijackPanic, c1, p1)).
Proof.
  split.
  - intros c1 p1 H.
    assert (Hc : res c1 = None).
    { pose proof (Release_clears c p) as Hc. rewrite H in Hc. exact Hc. }
    destruct (cleared_handle_inert c1 p1 Hc) as [H1 H2].
    repeat split; auto using ReleaseTimes_cleared.
  - intros o c1 p1 H.
    assert (Hc : res c1 = None).
    { pose proof (Hijack_clears c p) as Hc. rewrite H in Hc. exact Hc. }
    destruct (cleared_handle_inert c1 p1 Hc) as [H1 H2].
    repeat split; auto using ReleaseTimes_cleared.
Qed.

Lemma Release_Hijack_at_most_once_witness :
  Release (mkConn None)
    (spawn (mkGoroutine (mkPgxConn 1 false false "I")
                        (mkResource 1 (mkPgxConn 1 false false "I") 0))
           (emptyPool 3600 100 (Some (fun _ => true))))
  = (mkConn None,
     spawn (mkGoroutine (mkPgxConn 1 false false "I")
                        (mkResource 1 (mkPgxConn 1 false false "I") 0))
           (emptyPool 3600 100 (Some (fun _ => true)))) /\
  Hijack (mkConn None)
    (resHijack (mkResource 1 (mkPgxConn 1 false false "I") 0)
               (emptyPool 3600 100 None))
  = (Panics hijackPanic, mkConn None,
     resHijack (mkResource 1 (mkPgxConn 1 false false "I") 0)
               (emptyPool 3600 100 None)).
Proof.
  split.
  - apply (proj1 (Release_Hijack_at_most_once
                    (mkConn (Some (mkResource 1 (mkPgxConn 1 false false "I") 0)))
                    (emptyPool 3600 100 (Some (fun _ => true))))).
    reflexivity.
  - apply (proj2 (Release_Hijack_at_most_once
                    (mkConn (Some (mkResource 1 (mkPgxConn 1 false false "I") 0)))
                    (emptyPool 3600 100 None))
             (Returns (mkPgxConn 1 false false "I"))).
    reflexivity.
Defined.

End PoolProps.

(** ** The handle: the paths of Release that recycle, and the other
    methods *)

Module PoolExtra.
Import Pgxpool PoolProps.

Lemma not_expired_false p r : isExpired p r = false -> isExpired p r <> true.
Proof. intros ->. discriminate. Qed.

(** X1. Release on a healthy, unexpired resource of a pool without a
    post-release hook returns the resource to the idle set at once: the
    only call is puddle's Release; the resource stays in the pool, the
    lifetime-destroy counter and the health-check signal are as they
    were, no goroutine is started, and the handle is cleared. *)
Theorem Release_recycles_at_once (c : Conn) (p : Pool) (r : Resource) :
  res c = Some r ->
  healthy (Value r) ->
  isExpired p r = false ->
  afterRelease p = None ->
  res (fst (Release c p)) = None /\
  newEvents p (snd (Release c p)) = [EvRelease (resId r)] /\
  newGoroutines p (snd (Release c p)) = [] /\
  resId r ∈ idle (snd (Release c p)) /\
  members (snd (Release c p)) = members p /\
  lifetimeDestroyCount (snd (Release c p)) = lifetimeDestroyCount p /\
  healthCheckPending (snd (Release c p)) = healthCheckPending p.
Proof.
  intros Hres Hh Hexp Hhook. apply mustDestroy_healthy in Hh.
  unfold Release. rewrite Hres. cbn zeta. rewrite Hh, Hexp, Hhook. cbn.
  unfold newEvents, newGoroutines. cbn.
  rewrite drop_length_app, drop_all.
  repeat split; auto. apply elem_of_union_r, elem_of_singleton. reflexivity.
Qed.

Lemma Release_recycles_at_once_witness :
  newEvents (emptyPool 3600 100 None)
    (snd (Release (mkConn (Some (mkResource 4 (mkPgxConn 4 false false "I") 0)))
                  (emptyPool 3600 100 None)))
  = [EvRelease 4].
Proof.
  apply (Release_recycles_at_once
           (mkConn (Some (mkResource 4 (mkPgxConn 4 false false "I") 0)))
           (emptyPool 3600 100 None)
           (mkResource 4 (mkPgxConn 4 false false "I") 0)).
  - reflexivity.
  - repeat split.
  - reflexivity.
  - reflexivity.
Defined.

(** X2. Release on a healthy, unexpired resource of a pool with a
    post-release hook does not touch the pool itself: it makes no call and
    starts exactly one goroutine, for this connection and resource.
    Whenever that goroutine runs, it calls the hook the pool then has
    exactly once, on that connection; if the hook approves it returns the
    resource to the idle set, and if the hook rejects it destroys the
    resource and signals the health check. *)
Theorem Release_validates_in_goroutine (c : Conn) (p : Pool) (r : Resource)
  (hook : PgxConn -> bool) :
  res c = Some r ->
  healthy (Value r) ->
  isExpired p r = false ->
  afterRelease p = Some hook ->
  res (fst (Release c p)) = None /\
  newEvents p (snd (Release c p)) = [] /\
  newGoroutines p (snd (Release c p)) = [mkGoroutine (Value r) r] /\
  members (snd (Release c p)) = members p /\
  idle (snd (Release c p)) = idle p /\
  lifetimeDestroyCount (snd (Release c p)) = lifetimeDestroyCount p /\
  healthCheckPending (snd (Release c p)) = healthCheckPending p /\
  (forall q hook', afterRelease q = Some hook' ->
     exists q', runGoroutine (mkGoroutine (Value r) r) q = Some q' /\
       (hook' (Value r) = true ->
          newEvents q q' = [EvAfterRelease (connName (Value r)); EvRelease (resId r)] /\
          resId r ∈ idle q') /\
       (hook' (Value r) = false ->
          newEvents q q' = [EvAfterRelease (connName (Value r)); EvDestroy (resId r);
                            EvTriggerHealthCheck] /\
          ~ resId r ∈ members q' /\
          ~ resId r ∈ idle q' /\
          healthCheckPending q' = true)).
Proof.
  intros Hres Hh Hexp Hhook. apply mustDestroy_healthy in Hh.
  unfold Release. rewrite Hres. cbn zeta. rewrite Hh, Hexp, Hhook. cbn.
  unfold newEvents, newGoroutines. cbn.
  rewrite drop_length_app, drop_all.
  do 7 (split; [reflexivity|]).
  intros q hook' Hq. unfold runGoroutine. rewrite Hq. cbn.
  destruct (hook' (Value r)); eexists; (split; [reflexivity|]); split;
    try discriminate; intros _; cbn.
  - rewrite <- app_assoc, drop_length_app. split; [reflexivity|].
    apply elem_of_union_r, elem_of_singleton. reflexivity.
  - rewrite <- !app_assoc, drop_length_app.
    repeat split; auto using not_elem_of_removed.
Qed.

Lemma Release_validates_in_goroutine_witness :
  newGoroutines (emptyPool 3600 100 (Some IsClosed))
    (snd (Release (mkConn (Some (mkResource 4 (mkPgxConn 4 false false "I") 0)))
                  (emptyPool 3600 100 (Some IsClosed))))
  = [mkGoroutine (mkPgxConn 4 false false "I")
                 (mkResource 4 (mkPgxConn 4 false false "I") 0)].
Proof.
  apply (Release_validates_in_goroutine
           (mkConn (Some (mkResource 4 (mkPgxConn 4 false false "I") 0)))
           (emptyPool 3600 100 (Some IsClosed))
           (mkResource 4 (mkPgxConn 4 false false "I") 0) IsClosed).
  - reflexivity.
  - repeat split.
  - reflexivity.
  - reflexivity.
Defined.

(** What a goroutine of Release disposes of, wherever it runs: its own
    resource, once. *)
Lemma runGoroutine_disposes_once g q q' :
  runGoroutine g q = Some q' ->
  disposals (newEvents q q') = [EvDestroy (resId (goRes g))] \/
  disposals (newEvents q q') = [EvRelease (resId (goRes g))].
Proof.
  intros H. destruct (runGoroutine_events g q q' H) as [-> | ->]; cbn; auto.
Qed.

(** X3. Release disposes of the resource of the handle exactly once, and of
    no other: either Release itself makes exactly one call of puddle's
    Destroy or Release, for this resource, and starts no goroutine; or it
    makes no call and starts exactly one goroutine, which makes exactly
    one such call, for this resource, whenever it runs. On a handle whose
    reference is cleared Release makes no call and starts nothing. *)
Theorem Release_disposes_exactly_once (c : Conn) (p : Pool) :
  (forall r, res c = Some r ->
     ((disposals (newEvents p (snd (Release c p))) = [EvDestroy (resId r)] \/
       disposals (newEvents p (snd (Release c p))) = [EvRelease (resId r)]) /\
      newGoroutines p (snd (Release c p)) = []) \/
     (newEvents p (snd (Release c p)) = [] /\
      exists g, newGoroutines p (snd (Release c p)) = [g] /\ goRes g = r /\
        forall q q', runGoroutine g q = Some q' ->
          disposals (newEvents q q') = [EvDestroy (resId r)] \/
          disposals (newEvents q q') = [EvRelease (resId r)])) /\
  (res c = None ->
     newEvents p (snd (Release c p)) = [] /\
     newGoroutines p (snd (Release c p)) = []).
Proof.
  split.
  - intros r Hres. unfold Release. rewrite Hres. cbn zeta.
    unfold newEvents, newGoroutines.
    destruct (mustDestroy (Value r)); [|destruct (isExpired p r);
      [|destruct (afterRelease p) as [hook|]]]; cbn;
      rewrite <- ?app_assoc, ?drop_length_app, ?drop_all.
    + left. split; [left; reflexivity | reflexivity].
    + left. split; [left; reflexivity | reflexivity].
    + right. split; [reflexivity|].
      eexists. split; [reflexivity|]. split; [reflexivity|].
      intros q q' Hrun. apply (runGoroutine_disposes_once _ _ _ Hrun).
    + left. split; [right; reflexivity | reflexivity].
  - intros Hres. unfold Release. rewrite Hres.
    unfold newEvents, newGoroutines. cbn. rewrite !drop_all. split; reflexivity.
Qed.

Lemma Release_disposes_exactly_once_witness :
  ((disposals (newEvents (emptyPool 3600 100 None)
      (snd (Release (mkConn (Some (mkResource 4 (mkPgxConn 4 true false "I") 0)))
                    (emptyPool 3600 100 None))))
    = [EvDestroy 4] \/
    disposals (newEvents (emptyPool 3600 100 None)
      (snd (Release (mkConn (Some (mkResource 4 (mkPgxConn 4 true false "I") 0)))
                    (emptyPool 3600 100 None))))
    = [EvRelease 4]) /\
   newGoroutines (emptyPool 3600 100 None)
      (snd (Release (mkConn (Some (mkResource 4 (mkPgxConn 4 true false "I") 0)))
                    (emptyPool 3600 100 None))) = []) \/
  (newEvents (emptyPool 3600 100 None)
      (snd (Release (mkConn (Some (mkResource 4 (mkPgxConn 4 true false "I") 0)))
                    (emptyPool 3600 100 None))) = [] /\
   exists g,
     newGoroutines (emptyPool 3600 100 None)
      (snd (Release (mkConn (Some (mkResource 4 (mkPgxConn 4 true false "I") 0)))
                    (emptyPool 3600 100 None))) = [g] /\
     goRes g = mkResource 4 (mkPgxConn 4 true false "I") 0 /\
     forall q q', runGoroutine g q = Some q' ->
       disposals (newEvents q q') = [EvDestroy 4] \/
       disposals (newEvents q q') = [EvRelease 4]).
Proof.
  exact (proj1 (Release_disposes_exactly_once
                  (mkConn (Some (mkResource 4 (mkPgxConn 4 true false "I") 0)))
                  (emptyPool 3600 100 None))
           (mkResource 4 (mkPgxConn 4 true false "I") 0) eq_refl).
Defined.

(** X4. The lifetime-destroy counter moves only on one path: Release of a
    healthy connection whose resource has expired, where it goes up by one
    (modulo 2^64). In particular an expired resource whose connection is
    closed, busy or inside a transaction is destroyed without being
    counted. Hijack and the goroutine of Release leave the counter
    alone. *)
Theorem lifetimeDestroyCount_moves_only_on_expiry (c : Conn) (p : Pool) :
  (lifetimeDestroyCount (snd (Release c p)) = lifetimeDestroyCount p \/
   exists r, res c = Some r /\ healthy (Value r) /\ isExpired p r = true /\
     lifetimeDestroyCount (snd (Release c p)) = wrap64 (lifetimeDestroyCount p + 1)) /\
  (forall r, res c = Some r -> unhealthy (Value r) ->
     lifetimeDestroyCount (snd (Release c p)) = lifetimeDestroyCount p) /\
  lifetimeDestroyCount (snd (Hijack c p)) = lifetimeDestroyCount p /\
  (forall g p', runGoroutine g p = Some p' ->
     lifetimeDestroyCount p' = lifetimeDestroyCount p).
Proof.
  repeat apply conj.
  - unfold Release. destruct (res c) as [r|] eqn:Hres; [|left; reflexivity].
    cbn zeta. destruct (mustDestroy (Value r)) eqn:Hm; [left; reflexivity|].
    destruct (isExpired p r) eqn:Hexp.
    + right. exists r. apply mustDestroy_healthy in Hm.
      split; [reflexivity|]. split; [exact Hm|]. split; [exact Hexp | reflexivity].
    + left. destruct (afterRelease p); reflexivity.
  - intros r Hres Hu. apply mustDestroy_unhealthy in Hu.
    unfold Release. rewrite Hres. cbn zeta. rewrite Hu. reflexivity.
  - unfold Hijack. destruct (res c); reflexivity.
  - intros g p'. unfold runGoroutine. destruct (afterRelease p) as [hook|]; [|discriminate].
    destruct (hook (goConn g)); intros [= <-]; reflexivity.
Qed.

Lemma lifetimeDestroyCount_moves_only_on_expiry_witness :
  lifetimeDestroyCount
    (snd (Release (mkConn (Some (mkResource 4 (mkPgxConn 4 false true "I") 0)))
                  (emptyPool 3600 5000 None)))
  = lifetimeDestroyCount (emptyPool 3600 5000 None).
Proof.
  apply (proj1 (proj2 (lifetimeDestroyCount_moves_only_on_expiry
                  (mkConn (Some (mkResource 4 (mkPgxConn 4 false true "I") 0)))
                  (emptyPool 3600 5000 None)))
           (mkResource 4 (mkPgxConn 4 false true "I") 0) eq_refl).
  right; left; reflexivity.
Defined.

(** X5. Hijack takes the resource out of the pool whatever the state of its
    connection: closed, busy, inside a transaction or expired, the
    connection is handed to the caller as it is; the only call is
    puddle's Hijack, so nothing is destroyed, nothing is returned to the
    idle set, the health check is not signalled and no goroutine is
    started. *)
Theorem Hijack_hands_over_as_is (c : Conn) (p : Pool) (r : Resource) :
  res c = Some r ->
  fst (fst (Hijack c p)) = Returns (Value r) /\
  res (snd (fst (Hijack c p))) = None /\
  newEvents p (snd (Hijack c p)) = [EvHijack (resId r)] /\
  disposals (newEvents p (snd (Hijack c p))) = [] /\
  newGoroutines p (snd (Hijack c p)) = [] /\
  ~ resId r ∈ members (snd (Hijack c p)) /\
  ~ resId r ∈ idle (snd (Hijack c p)) /\
  healthCheckPending (snd (Hijack c p)) = healthCheckPending p.
Proof.
  intros Hres. unfold Hijack. rewrite Hres. cbn.
  unfold newEvents, newGoroutines. cbn. rewrite drop_length_app, drop_all.
  repeat split; auto using not_elem_of_removed.
Qed.

Lemma Hijack_hands_over_as_is_witness :
  fst (fst (Hijack (mkConn (Some (mkResource 4 (mkPgxConn 4 true true "T") 0)))
                   (emptyPool 3600 5000 None)))
  = Returns (mkPgxConn 4 true true "T").
Proof.
  apply (Hijack_hands_over_as_is
           (mkConn (Some (mkResource 4 (mkPgxConn 4 true true "T") 0)))
           (emptyPool 3600 5000 None)
           (mkResource 4 (mkPgxConn 4 true true "T") 0) eq_refl).
Defined.

Lemma forward_cleared {Answer} ctx label (method : PgxConn -> Answer * PgxConn) c out :
  res c = None ->
  forward Answer ctx label method c out
  = (Panics nilDereference, c, deadlineCheck ctx label out).
Proof. intros H. unfold forward, Conn', connResource. rewrite H. reflexivity. Qed.

Lemma cleared_methodsPanic c : res c = None -> methodsPanic c.
Proof.
  intros H. split.
  - unfold Conn', connResource. rewrite H. reflexivity.
  - intros. repeat split; intros; apply forward_cleared; exact H.
Qed.

(** X6. After Release, and after Hijack, the handle is unusable: [Conn()] and
    every method that forwards to the connection (Exec, Query, QueryRow,
    QueryFunc, SendBatch, CopyFrom, Begin, BeginTx, BeginFunc, BeginTxFunc,
    Ping) panic on the nil resource. The deadline check of the method has
    run by then, so a context without deadline still gets its line
    printed; the handle is left as it is. *)
Theorem methods_panic_after_Release_or_Hijack (c : Conn) (p : Pool) :
  methodsPanic (fst (Release c p)) /\
  methodsPanic (snd (fst (Hijack c p))).
Proof.
  split; apply cleared_methodsPanic; [apply Release_clears | apply Hijack_clears].
Qed.

(** X7. A call through the handle and the Release that follows. On an
    acquired handle the method runs on the connection of the resource and
    its answer is returned, whatever the deadline check printed; Release
    then judges the connection as the call left it: a connection left
    closed, busy or inside a transaction is destroyed and the health check
    signalled, and one left healthy is returned to the idle set (the
    resource not being expired, and the pool having no hook). *)
Theorem forwarded_call_then_Release {Answer : Type} (ctx : Context)
  (label : string) (method : PgxConn -> Answer * PgxConn)
  (c : Conn) (p : Pool) (r : Resource) (out : list string)
  (a : Answer) (conn' : PgxConn) :
  res c = Some r ->
  method (Value r) = (a, conn') ->
  fst (fst (forward Answer ctx label method c out)) = Returns a /\
  res (snd (fst (forward Answer ctx label method c out)))
    = Some (mkResource (resId r) conn' (CreationTime r)) /\
  snd (forward Answer ctx label method c out) = deadlineCheck ctx label out /\
  (unhealthy conn' ->
     newEvents p (snd (Release (snd (fst (forward Answer ctx label method c out))) p))
     = [EvDestroy (resId r); EvTriggerHealthCheck]) /\
  (healthy conn' -> isExpired p r = false -> afterRelease p = None ->
     newEvents p (snd (Release (snd (fst (forward Answer ctx label method c out))) p))
     = [EvRelease (resId r)]).
Proof.
  intros Hres Hm.
  assert (Hf : forward Answer ctx label method c out
               = (Returns a, mkConn (Some (mkResource (resId r) conn' (CreationTime r))),
                  deadlineCheck ctx label out)).
  { unfold forward, Conn', connResource, setValue. rewrite Hres, Hm. reflexivity. }
  rewrite Hf. cbn [fst snd].
  do 3 (split; [reflexivity|]). split.
  - intros Hu. apply mustDestroy_unhealthy in Hu.
    unfold Release, newEvents. cbn. rewrite Hu. cbn.
    rewrite <- app_assoc. apply drop_length_app.
  - intros Hh Hexp Hhook. apply mustDestroy_healthy in Hh.
    unfold Release, newEvents. cbn. rewrite Hh.
    unfold isExpired in *. cbn. rewrite Hexp, Hhook. cbn.
    apply drop_length_app.
Qed.

Lemma forwarded_call_then_Release_witness :
  newEvents (emptyPool 3600 100 None)
    (snd (Release
            (snd (fst (forward string (mkContext None) "begin call"
                         (openTransaction "BEGIN")
                         (mkConn (Some (mkResource 4 (mkPgxConn 4 false false "I") 0)))
                         [])))
            (emptyPool 3600 100 None)))
  = [EvDestroy 4; EvTriggerHealthCheck].
Proof.
  apply (proj1 (proj2 (proj2 (proj2
           (forwarded_call_then_Release (mkContext None) "begin call"
              (openTransaction "BEGIN")
              (mkConn (Some (mkResource 4 (mkPgxConn 4 false false "I") 0)))
              (emptyPool 3600 100 None)
              (mkResource 4 (mkPgxConn 4 false false "I") 0) []
              "BEGIN"%string (mkPgxConn 4 false false "T") eq_refl eq_refl))))).
  right; right. discriminate.
Defined.

End PoolExtra.

(** ** Batches *)

Module BatchProps.
Import Pgx.

(** *** Queue *)

(** Queue puts the item at the end of the queue and touches nothing else:
    no message is read or written. *)
Lemma Queue_appends sql args oids formats b :
  Queue sql args oids formats b =
    (Ret tt, setItems (items b ++ [mkBatchItem sql args oids formats]) b) /\
  conn (snd (Queue sql args oids formats b)) = conn b.
Proof. split; reflexivity. Qed.

(** *** Reading messages *)

Lemma readsOnly_refl c : readsOnly c c.
Proof. unfold readsOnly. repeat split; reflexivity. Qed.

Lemma readsOnly_trans c1 c2 c3 :
  readsOnly c1 c2 -> readsOnly c2 c3 -> readsOnly c1 c3.
Proof.
  unfold readsOnly.
  intros (A1 & A2 & A3 & A4 & A5 & A6 & A7 & A8) (B1 & B2 & B3 & B4 & B5 & B6 & B7 & B8).
  repeat split; try congruence. lia.
Qed.

(** [rxMsg] returns; it takes one item off the stream unless the stream
    has ended. *)
Lemma rxMsg_reads c :
  exists r c', rxMsg c = (Ret r, c') /\ readsOnly c c' /\
    (forall m, r = inl m -> (length (rx c') < length (rx c))%nat).
Proof.
  unfold rxMsg. destruct (rx c) as [|[m|e] rest] eqn:Hrx.
  - eexists _, _. split; [reflexivity|]. split; [apply readsOnly_refl|].
    intros m [=].
  - eexists _, _. split; [reflexivity|]. split.
    + unfold readsOnly. cbn. rewrite Hrx. cbn. repeat split; lia.
    + intros _ _. cbn. lia.
  - eexists _, _. split; [reflexivity|]. split.
    + unfold readsOnly. cbn. rewrite Hrx. cbn. repeat split; lia.
    + intros m [=].
Qed.

Lemma processContextFreeMsg_reads msg c :
  exists e c', processContextFreeMsg msg c = (Ret e, c') /\ readsOnly c c' /\
    rx c' = rx c.
Proof.
  destruct msg; cbn; eexists _, _;
    (split; [reflexivity|]); (split; [|reflexivity]);
    unfold readsOnly; cbn; repeat split; lia.
Qed.

Ltac step_rx c r c1 Hrx Hro Hlt :=
  destruct (rxMsg_reads c) as (r & c1 & Hrx & Hro & Hlt).

Ltac step_pcf msg c e c2 Hp Hro Hrxeq :=
  destruct (processContextFreeMsg_reads msg c) as (e & c2 & Hp & Hro & Hrxeq).

(** With more fuel than messages to come, the loop of ExecResults
    returns. *)
Lemma execLoop_reads fuel : forall c,
  (length (rx c) < fuel)%nat ->
  exists r c', execLoop fuel c = (Ret r, c') /\ readsOnly c c'.
Proof.
  induction fuel as [|n IH]; intros c Hfuel; [lia|].
  cbn [execLoop]. unfold bind.
  step_rx c r c1 Hrx Hro Hlt. rewrite Hrx.
  destruct r as [msg|e].
  - specialize (Hlt msg eq_refl).
    assert (Hgo : forall e c2, processContextFreeMsg msg c1 = (Ret e, c2) ->
              readsOnly c1 c2 -> rx c2 = rx c1 ->
              exists r c',
                match e with
                | Some e0 => ret (EmptyString, Some e0)
                | None => execLoop n
                end c2 = (Ret r, c') /\ readsOnly c c').
    { intros e c2 Hp Hro2 Hrxeq. destruct e as [e0|].
      - eexists _, _. split; [reflexivity|]. eapply readsOnly_trans; eauto.
      - destruct (IH c2) as (r & c' & Hl & Hro3); [rewrite Hrxeq; lia|].
        eexists _, _. split; [exact Hl|].
        eapply readsOnly_trans; [|exact Hro3]. eapply readsOnly_trans; eauto. }
    step_pcf msg c1 e c2 Hp Hro2 Hrxeq.
    destruct msg; try (rewrite Hp; eapply Hgo; eauto).
    eexists _, _. split; [reflexivity|]. exact Hro.
  - eexists _, _. split; [reflexivity|]. exact Hro.
Qed.

Lemma setRx_rx c : setRx (rx c) c = c.
Proof. destruct c; reflexivity. Qed.

Lemma setRx_setRx l k c : setRx l (setRx k c) = setRx l c.
Proof. reflexivity. Qed.

(** The final loop of Send is [consumeUntilReady] on the messages to
    come, and changes nothing else of the connection. *)
Lemma sendLoop_consumes fuel : forall c,
  (length (rx c) < fuel)%nat ->
  sendLoop fuel c =
    (Ret (fst (consumeUntilReady (rx c))),
     setRx (snd (consumeUntilReady (rx c))) c).
Proof.
  induction fuel as [|n IH]; intros c Hfuel; [lia|].
  cbn [sendLoop]. unfold bind, rxMsg.
  destruct (rx c) as [|[msg|e] rest] eqn:Hrx.
  - cbn. rewrite <- Hrx, setRx_rx. reflexivity.
  - assert (Hrest : (length (rx (setRx rest c)) < n)%nat) by (cbn in *; lia).
    destruct msg; cbn [processContextFreeMsg consumeUntilReady fst snd ret];
      try reflexivity;
      rewrite (IH _ Hrest); reflexivity.
  - reflexivity.
Qed.

(** Success of the final loop of Send: a ReadyForQuery was reached after
    messages that were all passed over, and the stream stands right after
    it. *)
Lemma consumeUntilReady_success script rest :
  consumeUntilReady script = (None, rest) <->
  exists pre st, script = pre ++ RxMsg (ReadyForQuery st) :: rest /\
                 Forall passedOver pre.
Proof.
  split.
  - revert rest. induction script as [|it script IH]; intros rest H; [discriminate|].
    destruct it as [msg|e]; [|discriminate].
    destruct msg; cbn in H;
      try (destruct (IH _ H) as (pre & st & -> & Hpre);
           eexists (_ :: pre), st; split; [reflexivity|];
           constructor; [exact I | exact Hpre]);
      try discriminate.
    injection H as <-. exists [], status. split; [reflexivity | constructor].
  - intros (pre & st & -> & Hpre). induction Hpre as [|it pre Hit Hpre IH].
    + reflexivity.
    + destruct it as [msg|e]; [|contradiction].
      destruct msg; cbn in Hit; try contradiction; exact IH.
Qed.

(** With more fuel than messages to come, the loop of
    ensureConnectionReadyForQuery returns, and when it returns no error no
    acknowledgement is outstanding. *)
Lemma ensureLoop_reads fuel : forall c,
  (length (rx c) < fuel)%nat ->
  exists e c', ensureLoop fuel c = (Ret e, c') /\ readsOnly c c' /\
    (e = None -> pendingReadyForQueryCount c' <= 0).
Proof.
  induction fuel as [|n IH]; intros c Hfuel; [lia|].
  cbn [ensureLoop]. unfold bind, get.
  destruct (0 <? pendingReadyForQueryCount c) eqn:Hpend.
  - step_rx c r c1 Hrx Hro Hlt. rewrite Hrx.
    destruct r as [msg|e].
    + specialize (Hlt msg eq_refl).
      step_pcf msg c1 e c2 Hp Hro2 Hrxeq. rewrite Hp.
      destruct e as [e0|].
      * eexists _, _. split; [reflexivity|]. split; [|discriminate].
        eapply readsOnly_trans; eauto.
      * destruct (IH c2) as (e & c' & Hl & Hro3 & Hz); [rewrite Hrxeq; lia|].
        eexists _, _. split; [exact Hl|]. split; [|exact Hz].
        eapply readsOnly_trans; [|exact Hro3]. eapply readsOnly_trans; eauto.
    + eexists _, _. split; [reflexivity|]. split; [exact Hro | discriminate].
  - eexists _, _. split; [reflexivity|]. split; [apply readsOnly_refl|].
    intros _. apply Z.ltb_ge in Hpend. exact Hpend.
Qed.

(** [ensureConnectionReadyForQuery] returns; it records itself in the
    history and otherwise only reads. *)
Lemma ensureConnectionReadyForQuery_reads c :
  exists e c', ensureConnectionReadyForQuery c = (Ret e, c') /\
    readsOnly (logEvent EvEnsureReady c) c' /\
    (e = None -> pendingReadyForQueryCount c' <= 0).
Proof.
  unfold ensureConnectionReadyForQuery, bind, modify, get.
  apply ensureLoop_reads. cbn. lia.
Qed.

Lemma rowDescriptionLoop_reads fuel : forall c,
  (length (rx c) < fuel)%nat ->
  exists r c', rowDescriptionLoop fuel c = (Ret r, c') /\ readsOnly c c'.
Proof.
  induction fuel as [|n IH]; intros c Hfuel; [lia|].
  cbn [rowDescriptionLoop]. unfold bind.
  step_rx c r c1 Hrx Hro Hlt. rewrite Hrx.
  destruct r as [msg|e].
  - specialize (Hlt msg eq_refl).
    assert (Hgo : forall e c2, processContextFreeMsg msg c1 = (Ret e, c2) ->
              readsOnly c1 c2 -> rx c2 = rx c1 ->
              exists r c',
                match e with
                | Some e0 => ret ([], Some e0)
                | None => rowDescriptionLoop n
                end c2 = (Ret r, c') /\ readsOnly c c').
    { intros e c2 Hp Hro2 Hrxeq. destruct e as [e0|].
      - eexists _, _. split; [reflexivity|]. eapply readsOnly_trans; eauto.
      - destruct (IH c2) as (r & c' & Hl & Hro3); [rewrite Hrxeq; lia|].
        eexists _, _. split; [exact Hl|].
        eapply readsOnly_trans; [|exact Hro3]. eapply readsOnly_trans; eauto. }
    step_pcf msg c1 e c2 Hp Hro2 Hrxeq.
    destruct msg; try (rewrite Hp; eapply Hgo; eauto).
    + eexists _, _. split; [reflexivity|]. exact Hro.
    + destruct (IH c1) as (r & c' & Hl & Hro3); [lia|].
      eexists _, _. split; [exact Hl|]. eapply readsOnly_trans; eauto.
  - eexists _, _. split; [reflexivity|]. exact Hro.
Qed.

Lemma readUntilRowDescription_reads c :
  exists r c', readUntilRowDescription c = (Ret r, c') /\ readsOnly c c'.
Proof.
  unfold readUntilRowDescription, bind, get.
  apply rowDescriptionLoop_reads. lia.
Qed.


(** *** Send *)


(** The steps of the items are those the design document lists, added to
    the buffer in queue order. *)
Lemma appendItems_steps c its : forall buf buf',
  appendItems c buf its = (buf', None) ->
  buf' = buf ++ concat (map (itemSteps (preparedStatements c)) its).
Proof.
  induction its as [|bi rest IH]; intros buf buf' H.
  - cbn in H. injection H as <-. cbn. by rewrite app_nil_r.
  - cbn [appendItems] in H. cbn [map concat]. unfold itemSteps at 1.
    destruct (preparedStatements c !! query bi) as [ps|];
      unfold appendBind in H;
      destruct (encodeFault (arguments bi)); try discriminate;
      apply IH in H; rewrite H;
      unfold appendExecute, appendDescribe, appendParse;
      rewrite <- ?app_assoc; reflexivity.
Qed.

#[local] Arguments ensureConnectionReadyForQuery : simpl never.
#[local] Arguments appendItems : simpl never.
#[local] Arguments sendLoop : simpl never.
#[local] Arguments consumeUntilReady : simpl never.

#[local] Arguments ensureConnectionReadyForQuery : simpl never.
#[local] Arguments appendItems : simpl never.
#[local] Arguments sendLoop : simpl never.
#[local] Arguments consumeUntilReady : simpl never.
#[local] Arguments wrap64 : simpl never.
#[local] Arguments appendQuery : simpl never.
#[local] Arguments appendSync : simpl never.
#[local] Arguments fatalWriteErr : simpl never.

(** Send, statement by statement, with the final loop replaced by
    [consumeUntilReady]. *)
Lemma Send_eq ctx0 tx b :
  Send ctx0 tx b =
  match err b with
  | Some e => (Ret (Some e), b)
  | None =>
      let b0 := setCtx (Some ctx0) b in
      match cancelQueryFault (conn b) with
      | Some e => (Ret (Some e), b0)
      | None =>
          match ensureConnectionReadyForQuery (conn b) with
          | (Ret (Some e), c1) => (Ret (Some e), setConn c1 b0)
          | (Ret None, c1) =>
              if ctxInProgress c1 then (Ret (Some errCtxInProgress), setConn c1 b0)
              else
                let c2 := setCtxInProgress true c1 in
                match appendItems c2 (appendQuery (wbuf c2) (beginSQL tx)) (items b) with
                | (_, Some e) => (Ret (Some e), setConn c2 b0)
                | (buf, None) =>
                    let out := appendQuery (appendSync buf) "commit" in
                    let c3 := logEvent (EvWrite out) c2 in
                    match writeFault c2 with
                    | Some (n, e) =>
                        (Ret (Some e),
                         setConn (if fatalWriteErr n e
                                  then logEvent (EvConnDie (Some e)) (setAlive false c3)
                                  else c3) b0)
                    | None =>
                        let c4 := setPending (wrap64 (pendingReadyForQueryCount c3 + 2)) c3 in
                        (Ret (fst (consumeUntilReady (rx c4))),
                         setSent true
                           (setConn (setRx (snd (consumeUntilReady (rx c4))) c4) b0))
                    end
                end
          | (Panic msg, c1) => (Panic msg, setConn c1 b0)
          | (OutOfFuel, c1) => (OutOfFuel, setConn c1 b0)
          end
      end
  end.
Proof.
  unfold Send, bind at 1, get at 1.
  destruct (err b) as [e0|] eqn:Herr; [reflexivity|].
  unfold bind, modify, onConn, waitForPreviousCancelQuery, get, ret, initContext,
    connWrite, connDie.
  cbn.
  destruct (cancelQueryFault (conn b)) as [e1|]; [reflexivity|]. cbn.
  destruct (ensureConnectionReadyForQuery (conn b)) as [[[e2|]| |] c1]; try reflexivity.
  cbn.
  destruct (ctxInProgress c1); [reflexivity|]. cbn.
  destruct (appendItems _ _ (items b)) as [buf [e3|]]; [reflexivity|]. cbn.
  destruct (writeFault c1) as [[n e4]|].
  - cbn. destruct (fatalWriteErr n e4); reflexivity.
  - cbn. rewrite sendLoop_consumes by (cbn; lia). reflexivity.
Qed.

Lemma newEvents_app c c' evs :
  history c' = history c ++ evs -> newEvents c c' = evs.
Proof. unfold newEvents. intros ->. apply drop_length_app. Qed.

Lemma newEvents_same c c' : history c' = history c -> newEvents c c' = [].
Proof. intros H. apply newEvents_app. by rewrite app_nil_r. Qed.

(** What [ensureConnectionReadyForQuery] leaves as it was. *)
Lemma ensureConnectionReadyForQuery_frame c r c1 :
  ensureConnectionReadyForQuery c = (r, c1) ->
  history c1 = history c ++ [EvEnsureReady] /\
  preparedStatements c1 = preparedStatements c /\
  wbuf c1 = wbuf c /\
  writeFault c1 = writeFault c /\
  alive c1 = alive c /\
  (exists e, r = Ret e /\ (e = None -> pendingReadyForQueryCount c1 <= 0)).
Proof.
  intros H.
  destruct (ensureConnectionReadyForQuery_reads c) as (e & c' & He & Hro & Hz).
  rewrite He in H. injection H as <- <-.
  destruct Hro as (A1 & A2 & A3 & A4 & A5 & A6 & A7 & A8). cbn in *.
  repeat split; auto. eauto.
Qed.

(** C4. A successful Send makes exactly one transmission: the begin
    statement, then for each queued item in queue order its steps (Parse
    unless the statement text is in the connection's prepared-statement
    cache, in which case the cached name is used; Bind with the item's
    arguments and result formats; Describe; Execute with row limit 0),
    then one Sync, then the statement commit. The transmission is built
    on the connection's write buffer [wbuf], which holds nothing when the
    connection is idle. *)
Theorem Send_transmission ctx0 tx b b' :
  Send ctx0 tx b = (Ret None, b') ->
  writes (newEvents (conn b) (conn b')) =
    [wbuf (conn b) ++
     transmission (preparedStatements (conn b)) (beginSQL tx) (items b)] /\
  (wbuf (conn b) = [] ->
   writes (newEvents (conn b) (conn b')) =
     [transmission (preparedStatements (conn b)) (beginSQL tx) (items b)]).
Proof.
  intros H.
  assert (Hw : writes (newEvents (conn b) (conn b')) =
    [wbuf (conn b) ++
     transmission (preparedStatements (conn b)) (beginSQL tx) (items b)]).
  2: { split; [exact Hw|]. intros Hnil. rewrite Hw, Hnil. reflexivity. }
  rewrite Send_eq in H.
  destruct (err b); [discriminate|]. cbn zeta in H.
  destruct (cancelQueryFault (conn b)); [discriminate|].
  destruct (ensureConnectionReadyForQuery (conn b)) as [r c1] eqn:Hens.
  apply ensureConnectionReadyForQuery_frame in Hens
    as (Hh & Hps & Hwb & Hwf & _ & _).
  destruct r as [[e|]| |]; try discriminate.
  destruct (ctxInProgress c1); [discriminate|].
  destruct (appendItems _ _ (items b)) as [buf [e|]] eqn:Hitems; [discriminate|].
  apply appendItems_steps in Hitems.
  destruct (writeFault (setCtxInProgress true c1)) as [[n e]|]; [discriminate|].
  injection H as H1 <-. cbn.
  erewrite newEvents_app; [|cbn; rewrite Hh, <- app_assoc; reflexivity].
  cbn. rewrite Hitems. cbn. rewrite Hps, Hwb.
  unfold transmission, appendQuery, appendSync.
  rewrite <- !app_assoc. reflexivity.
Qed.

Lemma Send_transmission_witness :
  writes (newEvents (conn (sampleBatch sampleAnswers))
            (conn (snd (Send background plainBegin (sampleBatch sampleAnswers)))))
  = [transmission sampleCache "begin" sampleItems].
Proof.
  refine (proj2 (Send_transmission background plainBegin
                   (sampleBatch sampleAnswers)
                   (snd (Send background plainBegin (sampleBatch sampleAnswers)))
                   _) _).
  - vm_compute. reflexivity.
  - reflexivity.
Defined.

(** The claim C5 as it is worded fails: the socket takes the write and
    then the read fails; Send returns the read error and the batch is
    marked as sent. *)
Lemma Send_read_failure_after_marking_sent :
  ~ sentOnlyWhenReady background plainBegin (sampleBatch [RxErr errReset]).
Proof.
  intros H. specialize (H errReset eq_refl). vm_compute in H. discriminate H.
Qed.

(** C5, amended. When the write has succeeded, Send adds exactly two to
    the count of outstanding ReadyForQuery acknowledgements and marks the
    batch as sent at once; it then consumes messages until a ReadyForQuery
    is seen, and returns success exactly when one is reached before a
    failure; if the reading fails first, Send returns that error, and the
    batch stays marked as sent. [c1] is the connection as the check before
    the write leaves it. *)
Theorem Send_acknowledgements ctx0 tx b r b' :
  Send ctx0 tx b = (r, b') ->
  writeFault (conn b) = None ->
  writes (newEvents (conn b) (conn b')) <> [] ->
  - 2 ^ 63 <= pendingReadyForQueryCount (snd (ensureConnectionReadyForQuery (conn b))) ->
  let c1 := snd (ensureConnectionReadyForQuery (conn b)) in
  pendingReadyForQueryCount (conn b') = pendingReadyForQueryCount c1 + 2 /\
  sent b' = true /\
  r = Ret (fst (consumeUntilReady (rx c1))) /\
  rx (conn b') = snd (consumeUntilReady (rx c1)) /\
  (r = Ret None <->
   exists pre st, rx c1 = pre ++ RxMsg (ReadyForQuery st) :: rx (conn b') /\
                  Forall passedOver pre).
Proof.
  intros H Hwf Hwrote Hrange c1. subst c1.
  rewrite Send_eq in H.
  destruct (err b).
  { injection H as <- <-. rewrite newEvents_same in Hwrote by reflexivity.
    contradiction. }
  cbn zeta in H.
  destruct (cancelQueryFault (conn b)).
  { injection H as <- <-. rewrite newEvents_same in Hwrote by reflexivity.
    contradiction. }
  destruct (ensureConnectionReadyForQuery (conn b)) as [r1 c1] eqn:Hens.
  apply ensureConnectionReadyForQuery_frame in Hens
    as (Hh & _ & _ & Hwf1 & _ & (e1 & -> & Hpend)).
  cbn [snd] in *.
  assert (Hnone : forall c, history c = history c1 ->
            writes (newEvents (conn b) c) = []).
  { intros c Hc. erewrite newEvents_app; [|rewrite Hc, Hh; reflexivity].
    reflexivity. }
  destruct e1 as [e1|].
  { injection H as <- <-. rewrite Hnone in Hwrote by reflexivity. contradiction. }
  specialize (Hpend eq_refl).
  destruct (ctxInProgress c1).
  { injection H as <- <-. rewrite Hnone in Hwrote by reflexivity. contradiction. }
  destruct (appendItems _ _ (items b)) as [buf [e|]].
  { injection H as <- <-. rewrite Hnone in Hwrote by reflexivity. contradiction. }
  cbn [writeFault setCtxInProgress] in H. rewrite Hwf1, Hwf in H.
  injection H as <- <-. cbn.
  rewrite wrap64_small by (unfold maxInt64; lia).
  repeat split; auto.
  - intros [= Hr]. apply consumeUntilReady_success.
    destruct (consumeUntilReady (rx c1)) as [o rest]. cbn in *. by subst.
  - intros Hex. apply consumeUntilReady_success in Hex.
    destruct (consumeUntilReady (rx c1)) as [o rest]. cbn in *. congruence.
Qed.

Lemma Send_acknowledgements_witness :
  pendingReadyForQueryCount
    (conn (snd (Send background plainBegin (sampleBatch [RxErr errReset]))))
  = 0 + 2 /\
  sent (snd (Send background plainBegin (sampleBatch [RxErr errReset]))) = true.
Proof.
  refine (let H := Send_acknowledgements background plainBegin
                     (sampleBatch [RxErr errReset])
                     (fst (Send background plainBegin (sampleBatch [RxErr errReset])))
                     (snd (Send background plainBegin (sampleBatch [RxErr errReset])))
                     _ _ _ _ in
          conj (proj1 H) (proj1 (proj2 H))).
  - vm_compute. reflexivity.
  - reflexivity.
  - vm_compute. discriminate.
  - vm_compute. discriminate.
Defined.

(** *** die and the result-reading operations *)

#[local] Arguments execLoop : simpl never.
#[local] Arguments die : simpl never.
#[local] Arguments readUntilRowDescription : simpl never.

(** The batch after [die e] has recorded an error on [b]. *)
Lemma die_eq e b :
  die e b =
  match err b with
  | Some _ => (Ret tt, b)
  | None =>
      let c := logEvent (EvConnDie e) (setAlive false (conn b)) in
      (Ret tt,
       setConn (match connPool b with
                | Some pool => logEvent (EvPoolRelease pool) c
                | None => c
                end) (setErr e b))
  end.
Proof.
  unfold die, bind at 1, get at 1.
  destruct (err b); [reflexivity|].
  unfold bind, modify, onConn, connDie, releaseToPool. cbn.
  destruct (connPool b); reflexivity.
Qed.

Lemma ExecResults_eq b :
  ExecResults b =
  match err b with
  | Some e => (Ret (EmptyString, Some e), b)
  | None =>
      match ctx b with
      | None => (Panic nilContext, b)
      | Some cx =>
          match ctxErr cx with
          | Some e => (Ret (EmptyString, Some e), snd (die (Some e) b))
          | None =>
              let '(r, c) := execLoop (S (length (rx (conn b)))) (conn b) in
              (r, setConn c (setResultsRead (wrap64 (resultsRead b + 1)) b))
          end
      end
  end.
Proof.
  unfold ExecResults, bind at 1, get at 1.
  destruct (err b) as [e0|] eqn:Herr; [reflexivity|].
  destruct (ctx b) as [cx|]; [|reflexivity].
  destruct (ctxErr cx) as [e|] eqn:Hcx.
  - unfold bind. rewrite !die_eq, !Herr. reflexivity.
  - unfold bind, modify, get, onConn. cbn.
    destruct (execLoop _ (conn b)) as [r c]. reflexivity.
Qed.

Lemma QueryResults_eq b :
  QueryResults b =
  match err b with
  | Some e => (Ret (None, Some e), b)
  | None =>
      match ctx b with
      | None => (Panic nilContext, b)
      | Some cx =>
          match ctxErr cx with
          | Some e => (Ret (None, Some e), snd (die (Some e) b))
          | None =>
              let b1 := setResultsRead (wrap64 (resultsRead b + 1)) b in
              match readUntilRowDescription (conn b) with
              | (Ret (fields, Some e), c) =>
                  (Ret (None, Some e), snd (die None (setConn c b1)))
              | (Ret (fields, None), c) =>
                  (Ret (Some (mkRows "batch query" fields), None), setConn c b1)
              | (Panic msg, c) => (Panic msg, setConn c b1)
              | (OutOfFuel, c) => (OutOfFuel, setConn c b1)
              end
          end
      end
  end.
Proof.
  unfold QueryResults, bind at 1, get at 1.
  destruct (err b) as [e0|] eqn:Herr; [reflexivity|].
  destruct (ctx b) as [cx|]; [|reflexivity].
  destruct (ctxErr cx) as [e|] eqn:Hcx.
  - unfold bind. rewrite !die_eq, !Herr. reflexivity.
  - unfold bind, modify, get, onConn. cbn.
    destruct (readUntilRowDescription (conn b)) as [[[fields [e|]]| |] c];
      try reflexivity.
    rewrite !die_eq. cbn. rewrite Herr. reflexivity.
Qed.

Lemma extends_same c c' : history c' = history c -> extends c c'.
Proof. intros H. exists []. split; [by rewrite app_nil_r | constructor]. Qed.

Lemma extends_refl c : extends c c.
Proof. by apply extends_same. Qed.

Lemma extends_trans c1 c2 c3 : extends c1 c2 -> extends c2 c3 -> extends c1 c3.
Proof.
  intros (e1 & H1 & F1) (e2 & H2 & F2). exists (e1 ++ e2). split.
  - rewrite H2, H1. by rewrite app_assoc.
  - apply Forall_app. by split.
Qed.

(** What ExecResults leaves as it was. It returns or panics; when it
    returns a result, no sticky error exists before or after, the cursor
    has moved by one and nothing was called but reads. *)
Lemma ExecResults_frame b :
  exists r b', ExecResults b = (r, b') /\
    r <> OutOfFuel /\
    connPool b' = connPool b /\
    items b' = items b /\
    ctx b' = ctx b /\
    sent b' = sent b /\
    extends (conn b) (conn b') /\
    (forall tag, r = Ret (tag, None) ->
       err b = None /\ err b' = None /\
       resultsRead b' = wrap64 (resultsRead b + 1) /\
       history (conn b') = history (conn b)).
Proof.
  rewrite ExecResults_eq.
  destruct (err b) as [e0|] eqn:Herr.
  { eexists _, _. split; [reflexivity|].
    repeat split; auto using extends_refl; try discriminate. }
  destruct (ctx b) as [cx|] eqn:Hctx.
  2: { eexists _, _. split; [reflexivity|].
       repeat split; auto using extends_refl; try discriminate. }
  destruct (ctxErr cx) as [e|].
  { rewrite die_eq, Herr. eexists _, _. split; [reflexivity|]. cbn.
    repeat split; auto; try discriminate.
    destruct (connPool b); eexists; cbn; rewrite <- ?app_assoc;
      (split; [reflexivity | repeat constructor]). }
  destruct (execLoop_reads (S (length (rx (conn b)))) (conn b)) as (r & c' & Hl & Hro);
    [lia|].
  rewrite Hl. eexists _, _. split; [reflexivity|].
  destruct Hro as (A1 & A2 & A3 & A4 & A5 & A6 & A7 & A8). cbn.
  repeat split; auto using extends_same; try discriminate.
Qed.

(** [n] calls of ExecResults in a row. *)
Lemma execTimes_frame n : forall b,
  exists r b', execTimes n b = (r, b') /\
    r <> OutOfFuel /\
    connPool b' = connPool b /\
    items b' = items b /\
    ctx b' = ctx b /\
    sent b' = sent b /\
    extends (conn b) (conn b') /\
    (r = Ret None -> err b = None ->
       err b' = None /\
       history (conn b') = history (conn b) /\
       (- 2 ^ 63 <= resultsRead b ->
        resultsRead b + Z.of_nat n <= maxInt64 ->
        resultsRead b' = resultsRead b + Z.of_nat n)).
Proof.
  induction n as [|n IH]; intros b.
  - eexists _, _. split; [reflexivity|].
    repeat split; auto using extends_refl; try discriminate. lia.
  - cbn [execTimes]. unfold bind.
    destruct (ExecResults_frame b)
      as (r & b1 & He & Hnf & Hp & Hi & Hc & Hs & Hx & Hok).
    rewrite He. destruct r as [[tag [e|]]| |].
    + eexists _, _. split; [reflexivity|].
      repeat split; auto; try discriminate.
    + destruct (Hok tag eq_refl) as (Herr & Herr1 & Hrr & Hh).
      destruct (IH b1) as (r' & b' & Hn & Hnf' & Hp' & Hi' & Hc' & Hs' & Hx' & Hok').
      rewrite Hn. eexists _, _. split; [reflexivity|].
      split; [exact Hnf'|]. do 4 (split; [congruence|]).
      split; [eapply extends_trans; eauto|].
      intros -> _. destruct (Hok' eq_refl Herr1) as (He' & Hh' & Hrr').
      split; [exact He'|]. split; [congruence|].
      intros Hlo Hhi.
      rewrite wrap64_small in Hrr by (unfold maxInt64 in *; lia).
      rewrite Hrr'; lia.
    + eexists _, _. split; [reflexivity|].
      repeat split; auto; try discriminate.
    + contradiction.
Qed.

(** The loop of Close calls ExecResults once for each item from the
    cursor to the end, and stops at the first call that fails. *)
Lemma closeLoop_execTimes fuel : forall i b,
  (Z.to_nat (Z.of_nat (length (items b)) - i) < fuel)%nat ->
  closeLoop fuel i b = execTimes (Z.to_nat (Z.of_nat (length (items b)) - i)) b.
Proof.
  induction fuel as [|n IH]; intros i b Hfuel; [lia|].
  cbn [closeLoop]. unfold bind at 1, get.
  destruct (i <? Z.of_nat (length (items b))) eqn:Hlt.
  - apply Z.ltb_lt in Hlt.
    replace (Z.to_nat (Z.of_nat (length (items b)) - i))
      with (S (Z.to_nat (Z.of_nat (length (items b)) - (i + 1)))) by lia.
    cbn [execTimes]. unfold bind.
    destruct (ExecResults_frame b) as (r & b1 & He & _ & _ & Hi & _).
    rewrite He. destruct r as [[tag [e|]]| |]; try reflexivity.
    rewrite <- Hi. apply IH. rewrite Hi. lia.
  - apply Z.ltb_ge in Hlt.
    replace (Z.to_nat (Z.of_nat (length (items b)) - i)) with O by lia.
    reflexivity.
Qed.

#[local] Arguments execTimes : simpl never.
#[local] Arguments closeLoop : simpl never.
#[local] Arguments ensureConnectionReadyForQuery : simpl never.

(** Close, statement by statement: the forced reads, then the check that
    the connection is ready, then the deferred function; and only the
    deferred function when reading panics. *)
Lemma Close_eq b :
  Close b =
  match err b with
  | Some e => (Ret (Some e), b)
  | None =>
      match execTimes (Z.to_nat (Z.of_nat (length (items b)) - resultsRead b)) b with
      | (Ret None, b1) =>
          (let* e := onConn ensureConnectionReadyForQuery in closeDeferred e) b1
      | (Ret (Some e), b1) => closeDeferred (Some e) b1
      | (Panic msg, b1) => (Panic msg, snd (closeDeferred None b1))
      | (OutOfFuel, b1) => (OutOfFuel, b1)
      end
  end.
Proof.
  unfold Close. destruct (err b); [reflexivity|].
  unfold closeBody, bind at 1, get. unfold bind at 1.
  rewrite closeLoop_execTimes by lia.
  destruct (execTimes _ b) as [[[e|]| |] b1]; try reflexivity.
  - unfold bind, onConn.
    destruct (ensureConnectionReadyForQuery_reads (conn b1)) as (e & c' & He & _).
    rewrite He. destruct e; reflexivity.
  - destruct (closeDeferred None b1). reflexivity.
Qed.


(** *** Close *)

#[local] Arguments ExecResults : simpl never.
#[local] Arguments QueryResults : simpl never.

Lemma closeDeferred_eq e b :
  closeDeferred e b =
  (Ret e,
   setConn (match connPool b with
            | Some pool =>
                logEvent (EvPoolRelease pool)
                  (logEvent (EvTermContext e) (setCtxInProgress false (conn b)))
            | None => logEvent (EvTermContext e) (setCtxInProgress false (conn b))
            end) b).
Proof.
  unfold closeDeferred, bind, onConn, termContext, releaseToPool. cbn.
  destruct (connPool b); reflexivity.
Qed.

(** The deferred function calls termContext and then, if the batch has a
    pool, the pool's Release. *)
Lemma closeDeferred_history e b :
  fst (closeDeferred e b) = Ret e /\
  history (conn (snd (closeDeferred e b))) =
    history (conn b) ++ [EvTermContext e] ++ releaseEvents b /\
  resultsRead (snd (closeDeferred e b)) = resultsRead b /\
  pendingReadyForQueryCount (conn (snd (closeDeferred e b))) =
    pendingReadyForQueryCount (conn b).
Proof.
  rewrite closeDeferred_eq. unfold releaseEvents. cbn.
  destruct (connPool b); cbn; rewrite <- ?app_assoc; auto.
Qed.

(** The claim C6 as it is worded fails: the connection breaks while Close
    reads the answer to the first of two unread items; Close returns the
    error with the cursor at 1 and without checking that the connection is
    ready. *)
Lemma Close_stops_at_failed_read :
  ~ closeConsumesAndVerifies (sentSample brokenAnswers).
Proof.
  intros [H _]. vm_compute in H. discriminate H.
Qed.

(** C6, amended. On a batch with N queued items, k < N of them read and
    no sticky error, Close calls ExecResults for the remaining items one
    after the other, as a caller would who stops at the first call that
    fails. If all N - k calls succeed, the cursor is at N and Close then
    checks that the connection is ready for a query, before the deferred
    function runs and it returns. If one of them fails, Close returns that
    error through the deferred function, without reading the rest and
    without that check. *)
Theorem Close_force_consumes b :
  err b = None ->
  0 <= resultsRead b < Z.of_nat (length (items b)) ->
  Z.of_nat (length (items b)) <= maxInt64 ->
  let n := Z.to_nat (Z.of_nat (length (items b)) - resultsRead b) in
  (forall b1, execTimes n b = (Ret None, b1) ->
     resultsRead b1 = Z.of_nat (length (items b)) /\
     Close b = (let* e := onConn ensureConnectionReadyForQuery in closeDeferred e) b1 /\
     exists e,
       fst (Close b) = Ret e /\
       resultsRead (snd (Close b)) = Z.of_nat (length (items b)) /\
       newEvents (conn b) (conn (snd (Close b))) =
         [EvEnsureReady; EvTermContext e] ++ releaseEvents b /\
       (e = None -> pendingReadyForQueryCount (conn (snd (Close b))) <= 0)) /\
  (forall e b1, execTimes n b = (Ret (Some e), b1) ->
     Close b = closeDeferred (Some e) b1 /\
     fst (Close b) = Ret (Some e) /\
     ~ EvEnsureReady ∈ newEvents (conn b) (conn (snd (Close b)))) /\
  (forall msg b1, execTimes n b = (Panic msg, b1) ->
     Close b = (Panic msg, snd (closeDeferred None b1))) /\
  fst (execTimes n b) <> OutOfFuel.
Proof.
  intros Herr Hk HN n.
  destruct (execTimes_frame n b)
    as (r & b1 & Hn & Hnf & Hp & Hi & Hc & Hs & (evs & Hh & Hdie) & Hok).
  assert (HClose := Close_eq b). rewrite Herr in HClose. fold n in HClose.
  rewrite Hn in HClose. rewrite Hn.
  split; [|split; [|split]]; [| | |exact Hnf].
  - intros b1' [= -> <-].
    destruct (Hok eq_refl Herr) as (Herr1 & Hh1 & Hrr).
    assert (Hrr1 : resultsRead b1 = Z.of_nat (length (items b))).
    { rewrite Hrr; unfold maxInt64 in *; lia. }
    split; [exact Hrr1|]. split; [exact HClose|].
    rewrite HClose. unfold bind, onConn.
    destruct (ensureConnectionReadyForQuery (conn b1)) as [re c2] eqn:Hens.
    apply ensureConnectionReadyForQuery_frame in Hens
      as (Hh2 & _ & _ & _ & _ & (e & -> & Hpend)).
    destruct (closeDeferred_history e (setConn c2 b1)) as (Hf & Hhd & Hrd & Hpd).
    exists e. split; [exact Hf|]. split; [rewrite Hrd; exact Hrr1|]. split.
    + apply newEvents_app. rewrite Hhd. cbn. rewrite Hh2, Hh1.
      unfold releaseEvents. cbn. rewrite Hp, <- !app_assoc. reflexivity.
    + intros He. rewrite Hpd. cbn. auto.
  - intros e b1' [= -> <-]. split; [exact HClose|]. rewrite HClose.
    destruct (closeDeferred_history (Some e) b1) as (Hf & Hhd & _).
    split; [exact Hf|]. intros Hin.
    erewrite newEvents_app in Hin; [|rewrite Hhd, Hh, <- app_assoc; reflexivity].
    apply elem_of_app in Hin as [Hin | Hin].
    + eapply Forall_forall in Hdie; [|exact Hin]. exact Hdie.
    + unfold releaseEvents in Hin. destruct (connPool b1); absent_from_list Hin.
  - intros msg b1' [= -> <-]. exact HClose.
Qed.

Lemma Close_force_consumes_witness :
  resultsRead (snd (Close (sentSample sampleAnswers))) = 2.
Proof.
  assert (H1 : err (sentSample sampleAnswers) = None) by reflexivity.
  assert (H2 : 0 <= resultsRead (sentSample sampleAnswers)
               < Z.of_nat (length (items (sentSample sampleAnswers))))
    by (vm_compute; split; [discriminate | reflexivity]).
  assert (H3 : Z.of_nat (length (items (sentSample sampleAnswers))) <= maxInt64)
    by (vm_compute; discriminate).
  assert (H4 : execTimes 2 (sentSample sampleAnswers)
               = (Ret None, snd (execTimes 2 (sentSample sampleAnswers))))
    by (vm_compute; reflexivity).
  destruct (proj1 (Close_force_consumes (sentSample sampleAnswers) H1 H2 H3) _ H4)
    as (_ & _ & e & _ & Hr & _).
  exact Hr.
Defined.

(** The claim C7 as it is worded fails: the context of a sent batch from
    pool 1 is cancelled, ExecResults records the cancellation as the
    sticky error, and the Close that follows returns it without calling
    the pool's Release. *)
Lemma Close_on_sticky_error_releases_nothing :
  ~ closeAlwaysReleases (snd (ExecResults (cancelled (sentSample sampleAnswers)))).
Proof.
  intros H. specialize (H 1%nat eq_refl). vm_compute in H.
  apply elem_of_nil in H. exact H.
Qed.

(** Close returns or panics. *)
Lemma Close_not_OutOfFuel b : fst (Close b) <> OutOfFuel.
Proof.
  rewrite Close_eq. destruct (err b); [discriminate|].
  destruct (execTimes_frame (Z.to_nat (Z.of_nat (length (items b)) - resultsRead b)) b)
    as (r & b1 & Hn & Hnf & _).
  rewrite Hn. destruct r as [[e|]| |]; try discriminate; try contradiction.
  - rewrite (proj1 (closeDeferred_history (Some e) b1)). discriminate.
  - unfold bind, onConn.
    destruct (ensureConnectionReadyForQuery_reads (conn b1)) as (e & c' & He & _).
    rewrite He. rewrite (proj1 (closeDeferred_history e _)). discriminate.
Qed.

(** C7, amended. On a pool-managed batch without a sticky error, every
    way out of Close (the return after the check, the early return of an
    error, a panic) goes through the deferred function, whose last two
    calls are termContext and the pool's Release of the connection. When a
    sticky error exists, Close returns it at once: nothing is deferred yet
    and nothing is released. *)
Theorem Close_deferred_release b pool :
  connPool b = Some pool ->
  (err b = None ->
     fst (Close b) <> OutOfFuel /\
     exists pre e,
       newEvents (conn b) (conn (snd (Close b))) =
         pre ++ [EvTermContext e; EvPoolRelease pool]) /\
  (forall e0, err b = Some e0 ->
     Close b = (Ret (Some e0), b) /\
     newEvents (conn b) (conn (snd (Close b))) = []).
Proof.
  intros Hpool. split.
  - intros Herr. split; [apply Close_not_OutOfFuel|].
    rewrite Close_eq, Herr.
    destruct (execTimes_frame (Z.to_nat (Z.of_nat (length (items b)) - resultsRead b)) b)
      as (r & b1 & Hn & Hnf & Hp & _ & _ & _ & (evs & Hh & _) & _).
    rewrite Hn.
    assert (Hdef : forall e b2, connPool b2 = connPool b ->
              forall evs2, history (conn b2) = history (conn b) ++ evs2 ->
              newEvents (conn b) (conn (snd (closeDeferred e b2))) =
                evs2 ++ [EvTermContext e; EvPoolRelease pool]).
    { intros e b2 Hp2 evs2 Hh2.
      destruct (closeDeferred_history e b2) as (_ & Hhd & _).
      apply newEvents_app. rewrite Hhd, Hh2. unfold releaseEvents.
      rewrite Hp2, Hpool, <- app_assoc. reflexivity. }
    destruct r as [[e|]| |].
    + eexists _, _. eapply Hdef; eauto.
    + unfold bind, onConn.
      destruct (ensureConnectionReadyForQuery (conn b1)) as [re c2] eqn:Hens.
      apply ensureConnectionReadyForQuery_frame in Hens
        as (Hh2 & _ & _ & _ & _ & (e & -> & _)).
      eexists _, _. eapply Hdef; [exact Hp|].
      cbn. rewrite Hh2, Hh, <- app_assoc. reflexivity.
    + eexists _, _. cbn [snd]. eapply Hdef; eauto.
    + contradiction.
  - intros e0 Herr. unfold Close. rewrite Herr. split; [reflexivity|].
    apply newEvents_same. reflexivity.
Qed.

Lemma Close_deferred_release_witness :
  Close (snd (ExecResults (cancelled (sentSample sampleAnswers))))
  = (Ret (Some errCanceled), snd (ExecResults (cancelled (sentSample sampleAnswers)))) /\
  exists pre e,
    newEvents (conn (sentSample brokenAnswers))
              (conn (snd (Close (sentSample brokenAnswers))))
    = pre ++ [EvTermContext e; EvPoolRelease 1].
Proof.
  split.
  - apply (proj2 (Close_deferred_release
                    (snd (ExecResults (cancelled (sentSample sampleAnswers))))
                    1%nat eq_refl) errCanceled eq_refl).
  - apply (proj1 (Close_deferred_release (sentSample brokenAnswers) 1%nat eq_refl)
             eq_refl).
Defined.


(** *** The sticky error *)






(** *** Reading past the end of the queue *)

(** The claim C9 as it is worded fails: both items of the sample batch
    have been read; a third ExecResults returns the tag of the commit that
    ends the batch, and no error. *)
Lemma ExecResults_past_the_end_succeeds :
  ~ overReadFails (snd (ExecResults (snd (ExecResults (sentSample sampleAnswers))))).
Proof.
  intros H.
  assert (Hk : Z.of_nat (length (items
                 (snd (ExecResults (snd (ExecResults (sentSample sampleAnswers)))))))
               <= resultsRead
                 (snd (ExecResults (snd (ExecResults (sentSample sampleAnswers))))))
    by (vm_compute; discriminate).
  specialize (H Hk "COMMIT"%string). vm_compute in H. apply H; reflexivity.
Qed.

(** After every item has been read the stream stands at the
    ReadyForQuery of Sync, which the loop of ExecResults passes over, and
    then at the completion of commit, whose tag it returns. *)
Lemma execLoop_ready_then_complete fuel c st tag rest :
  rx c = RxMsg (ReadyForQuery st) :: RxMsg (CommandComplete tag) :: rest ->
  (2 <= fuel)%nat ->
  execLoop fuel c =
    (Ret (tag, None),
     setRx rest
       (setTxStatus st (setPending (wrap64 (pendingReadyForQueryCount c - 1)) c))).
Proof.
  intros Hrx Hfuel. destruct fuel as [|[|n]]; [lia | lia |].
  cbv [execLoop bind rxMsg]. rewrite Hrx. reflexivity.
Qed.

(** C9, amended. The result-reading operations do not compare the cursor
    with the number of queued items: what ExecResults and QueryResults
    return, and what they do to the connection, is the same whatever the
    queue holds and wherever the cursor stands, so a call after the N-th
    reads on like any other; when the next messages are the ReadyForQuery
    of Sync and the completion of commit, it returns the tag of commit and
    no error. A Close that follows, on a batch without a
    sticky error whose cursor is at or past N, force-consumes nothing: it
    checks that the connection is ready, runs the deferred function and
    returns what the check returned. *)
Theorem reading_past_the_end b :
  (forall its k,
     fst (ExecResults (setItems its (setResultsRead k b))) = fst (ExecResults b) /\
     conn (snd (ExecResults (setItems its (setResultsRead k b))))
       = conn (snd (ExecResults b)) /\
     fst (QueryResults (setItems its (setResultsRead k b))) = fst (QueryResults b) /\
     conn (snd (QueryResults (setItems its (setResultsRead k b))))
       = conn (snd (QueryResults b))) /\
  (err b = None ->
   Z.of_nat (length (items b)) <= resultsRead b ->
   Close b = (let* e := onConn ensureConnectionReadyForQuery in closeDeferred e) b /\
   resultsRead (snd (Close b)) = resultsRead b /\
   exists e,
     fst (Close b) = Ret e /\
     fst (ensureConnectionReadyForQuery (conn b)) = Ret e /\
     newEvents (conn b) (conn (snd (Close b))) =
       [EvEnsureReady; EvTermContext e] ++ releaseEvents b) /\
  (forall cx st tag rest,
     err b = None -> ctx b = Some cx -> ctxErr cx = None ->
     rx (conn b) = RxMsg (ReadyForQuery st) :: RxMsg (CommandComplete tag) :: rest ->
     fst (ExecResults b) = Ret (tag, None) /\
     rx (conn (snd (ExecResults b))) = rest).
Proof.
  split; [|split].
  - intros its k. rewrite !ExecResults_eq, !QueryResults_eq. cbn.
    destruct (err b) as [e0|] eqn:Herr; [repeat split|].
    destruct (ctx b) as [cx|]; [|repeat split].
    destruct (ctxErr cx) as [e|].
    + rewrite !die_eq. cbn. rewrite Herr. repeat split.
    + destruct (execLoop _ (conn b)) as [r c].
      destruct (readUntilRowDescription (conn b)) as [[[fields [e|]]| |] c'];
        rewrite ?die_eq; cbn; rewrite ?Herr; repeat split.
  - intros Herr Hk.
    assert (HClose := Close_eq b). rewrite Herr in HClose.
    replace (Z.to_nat (Z.of_nat (length (items b)) - resultsRead b)) with O
      in HClose by lia.
    change (execTimes 0 b) with (@Ret (option error) None, b) in HClose.
    split; [exact HClose|]. rewrite HClose. unfold bind, onConn.
    destruct (ensureConnectionReadyForQuery (conn b)) as [re c2] eqn:Hens.
    apply ensureConnectionReadyForQuery_frame in Hens
      as (Hh2 & _ & _ & _ & _ & (e & -> & _)).
    destruct (closeDeferred_history e (setConn c2 b)) as (Hf & Hhd & Hrd & _).
    split; [exact Hrd|]. exists e. split; [exact Hf|]. split; [reflexivity|].
    apply newEvents_app. rewrite Hhd. cbn. rewrite Hh2, <- app_assoc. reflexivity.
  - intros cx st tag rest Herr Hctx Hcx Hrx.
    rewrite ExecResults_eq, Herr, Hctx, Hcx, Hrx.
    rewrite (execLoop_ready_then_complete _ _ st tag rest) by (cbn; auto with lia).
    split; reflexivity.
Qed.

Lemma reading_past_the_end_witness :
  exists e,
    fst (Close (snd (ExecResults (snd (ExecResults (snd (ExecResults
           (sentSample sampleAnswers)))))))) = Ret e /\
    fst (ensureConnectionReadyForQuery
           (conn (snd (ExecResults (snd (ExecResults (snd (ExecResults
              (sentSample sampleAnswers))))))))) = Ret e /\
    newEvents
      (conn (snd (ExecResults (snd (ExecResults (snd (ExecResults
         (sentSample sampleAnswers))))))))
      (conn (snd (Close (snd (ExecResults (snd (ExecResults (snd (ExecResults
         (sentSample sampleAnswers))))))))))
    = [EvEnsureReady; EvTermContext e] ++
      releaseEvents (snd (ExecResults (snd (ExecResults (snd (ExecResults
         (sentSample sampleAnswers))))))).
Proof.
  assert (H1 : err (snd (ExecResults (snd (ExecResults (snd (ExecResults
                 (sentSample sampleAnswers))))))) = None) by reflexivity.
  assert (H2 : Z.of_nat (length (items (snd (ExecResults (snd (ExecResults
                 (snd (ExecResults (sentSample sampleAnswers)))))))))
               <= resultsRead (snd (ExecResults (snd (ExecResults
                 (snd (ExecResults (sentSample sampleAnswers))))))))
    by (vm_compute; discriminate).
  exact (proj2 (proj2 (proj1 (proj2 (reading_past_the_end _)) H1 H2))).
Defined.

(** *** QueryRowResults *)




(** *** The operations return or panic *)

(** The fuel given to the loops is never used up. *)
Lemma operations_never_OutOfFuel b :
  (forall ctx0 tx, fst (Send ctx0 tx b) <> OutOfFuel) /\
  fst (ExecResults b) <> OutOfFuel /\
  fst (QueryResults b) <> OutOfFuel /\
  fst (QueryRowResults b) <> OutOfFuel /\
  fst (Close b) <> OutOfFuel.
Proof.
  assert (HQ : fst (QueryResults b) <> OutOfFuel).
  { rewrite QueryResults_eq.
    destruct (err b); [discriminate|].
    destruct (ctx b) as [cx|]; [|discriminate].
    destruct (ctxErr cx); [discriminate|].
    destruct (readUntilRowDescription_reads (conn b)) as ([fields e] & c & Hr & _).
    rewrite Hr. destruct e; discriminate. }
  repeat apply conj.
  - intros ctx0 tx. rewrite Send_eq.
    destruct (err b); [discriminate|]. cbn zeta.
    destruct (cancelQueryFault (conn b)); [discriminate|].
    destruct (ensureConnectionReadyForQuery_reads (conn b)) as (e & c1 & He & _).
    rewrite He. destruct e; [discriminate|].
    destruct (ctxInProgress c1); [discriminate|].
    destruct (appendItems _ _ (items b)) as [buf [e|]]; [discriminate|].
    destruct (writeFault _) as [[n e]|]; discriminate.
  - destruct (ExecResults_frame b) as (r & b' & He & Hnf & _). rewrite He. exact Hnf.
  - exact HQ.
  - unfold QueryRowResults, bind.
    destruct (QueryResults b) as [[[rows e]| |] b']; cbn in *;
      try discriminate; try contradiction.
  - apply Close_not_OutOfFuel.
Qed.

End BatchProps.

(** ** Batches: queueing, the ways Send fails, and reading *)

Module BatchExtra.
Import Pgx BatchProps.

#[local] Arguments ensureConnectionReadyForQuery : simpl never.
#[local] Arguments sendLoop : simpl never.
#[local] Arguments consumeUntilReady : simpl never.
#[local] Arguments wrap64 : simpl never.
#[local] Arguments fatalWriteErr : simpl never.
#[local] Arguments execLoop : simpl never.
#[local] Arguments readUntilRowDescription : simpl never.
#[local] Arguments die : simpl never.
#[local] Arguments execTimes : simpl never.
#[local] Arguments ExecResults : simpl never.
#[local] Arguments QueryResults : simpl never.
#[local] Arguments transmission : simpl never.

(** *** Queue *)

Lemma QueueAll_items its : forall b,
  QueueAll its b = (Ret tt, setItems (items b ++ its) b).
Proof.
  induction its as [|bi rest IH]; intros b.
  - cbn. unfold ret. rewrite app_nil_r. destruct b; reflexivity.
  - cbn [QueueAll]. unfold bind, Queue, modify. rewrite IH. cbn.
    rewrite <- app_assoc. destruct bi; reflexivity.
Qed.

(** The loop over the items either fails with the error of the first
    argument that does not encode, or yields the steps of all items. *)
Lemma appendItems_firstFault c its : forall buf,
  appendItems c buf its =
  match firstFault its with
  | Some e => ([], Some e)
  | None => (buf ++ concat (map (itemSteps (preparedStatements c)) its), None)
  end.
Proof.
  induction its as [|bi rest IH]; intros buf.
  - cbn. by rewrite app_nil_r.
  - cbn [appendItems firstFault map concat]. unfold itemSteps at 1, appendBind.
    destruct (encodeFault (arguments bi)) as [e|].
    + destruct (preparedStatements c !! query bi); reflexivity.
    + destruct (preparedStatements c !! query bi) as [ps|]; rewrite IH;
        destruct (firstFault rest); try reflexivity;
        unfold appendExecute, appendDescribe, appendParse;
        rewrite <- ?app_assoc; reflexivity.
Qed.

#[local] Arguments appendItems : simpl never.

(** *** Send *)

(** Send once the checks before the buffer is built have passed. *)
Lemma Send_past_checks ctx0 tx b c1 :
  err b = None ->
  cancelQueryFault (conn b) = None ->
  ensureConnectionReadyForQuery (conn b) = (Ret None, c1) ->
  ctxInProgress (conn b) = false ->
  Send ctx0 tx b =
  let b0 := setCtx (Some ctx0) b in
  let c2 := setCtxInProgress true c1 in
  match firstFault (items b) with
  | Some e => (Ret (Some e), setConn c2 b0)
  | None =>
      let out := wbuf (conn b) ++
                 transmission (preparedStatements (conn b)) (beginSQL tx) (items b) in
      let c3 := logEvent (EvWrite out) c2 in
      match writeFault (conn b) with
      | Some (n, e) =>
          (Ret (Some e),
           setConn (if fatalWriteErr n e
                    then logEvent (EvConnDie (Some e)) (setAlive false c3)
                    else c3) b0)
      | None =>
          let c4 := setPending (wrap64 (pendingReadyForQueryCount c3 + 2)) c3 in
          (Ret (fst (consumeUntilReady (rx c4))),
           setSent true (setConn (setRx (snd (consumeUntilReady (rx c4))) c4) b0))
      end
  end.
Proof.
  intros Herr Hcq Hens Hcip.
  rewrite Send_eq, Herr, Hcq, Hens. cbn zeta.
  destruct (ensureConnectionReadyForQuery_reads (conn b)) as (e & c' & He & Hro & _).
  rewrite He in Hens. injection Hens as -> ->.
  destruct Hro as (_ & Hps & Hci & Hwb & _ & Hwf & _). cbn in Hps, Hci, Hwb, Hwf.
  rewrite Hci, Hcip. rewrite appendItems_firstFault.
  destruct (firstFault (items b)); [reflexivity|].
  cbn [preparedStatements wbuf writeFault setCtxInProgress].
  rewrite Hps, Hwb, Hwf.
  assert (Hout : appendQuery
            (appendSync
               (appendQuery (wbuf (conn b)) (beginSQL tx) ++
                concat (map (itemSteps (preparedStatements (conn b))) (items b))))
            "commit"
          = wbuf (conn b) ++
            transmission (preparedStatements (conn b)) (beginSQL tx) (items b)).
  { unfold transmission, appendQuery, appendSync. rewrite <- !app_assoc. reflexivity. }
  rewrite Hout. reflexivity.
Qed.

#[local] Arguments appendQuery : simpl never.
#[local] Arguments appendSync : simpl never.

(** X8. Send writes the whole batch in one write, or nothing at all: among
    the calls of a Send there is at most one write, and it carries the
    complete transmission. The batch is marked as sent exactly when that
    write took place and succeeded (or it was marked before). *)
Theorem Send_writes_whole_batch_or_nothing ctx0 tx b :
  (writes (newEvents (conn b) (conn (snd (Send ctx0 tx b)))) = [] \/
   writes (newEvents (conn b) (conn (snd (Send ctx0 tx b)))) =
     [wbuf (conn b) ++
      transmission (preparedStatements (conn b)) (beginSQL tx) (items b)]) /\
  (sent (snd (Send ctx0 tx b)) = true <->
   sent b = true \/
   (writeFault (conn b) = None /\
    writes (newEvents (conn b) (conn (snd (Send ctx0 tx b)))) <> [])).
Proof.
  assert (Hnone : forall b', conn b' = conn b -> sent b' = sent b ->
            (writes (newEvents (conn b) (conn b')) = [] \/
             writes (newEvents (conn b) (conn b')) =
               [wbuf (conn b) ++
                transmission (preparedStatements (conn b)) (beginSQL tx) (items b)]) /\
            (sent b' = true <->
             sent b = true \/
             (writeFault (conn b) = None /\
              writes (newEvents (conn b) (conn b')) <> []))).
  { intros b' Hc Hs. rewrite Hc, Hs, newEvents_same by reflexivity. cbn.
    split; [left; reflexivity|]. split; [auto|]. intros [H|[_ H]]; [exact H|contradiction]. }
  destruct (err b) as [e0|] eqn:Herr.
  { rewrite Send_eq, Herr. apply Hnone; reflexivity. }
  destruct (cancelQueryFault (conn b)) as [e1|] eqn:Hcq.
  { rewrite Send_eq, Herr, Hcq. apply Hnone; reflexivity. }
  destruct (ensureConnectionReadyForQuery (conn b)) as [r c1] eqn:Hens.
  pose proof Hens as Hfr.
  apply ensureConnectionReadyForQuery_frame in Hfr
    as (Hh & _ & _ & _ & _ & (e2 & -> & _)).
  assert (Hquiet : forall c b', history c = history c1 -> conn b' = c ->
            sent b' = sent b ->
            (writes (newEvents (conn b) (conn b')) = [] \/
             writes (newEvents (conn b) (conn b')) =
               [wbuf (conn b) ++
                transmission (preparedStatements (conn b)) (beginSQL tx) (items b)]) /\
            (sent b' = true <->
             sent b = true \/
             (writeFault (conn b) = None /\
              writes (newEvents (conn b) (conn b')) <> []))).
  { intros c b' Hc Hb Hs. rewrite Hb, Hs.
    erewrite newEvents_app; [|rewrite Hc, Hh; reflexivity]. cbn.
    split; [left; reflexivity|]. split; [auto|]. intros [H|[_ H]]; [exact H|contradiction]. }
  destruct e2 as [e2|].
  { rewrite Send_eq, Herr, Hcq, Hens. cbn zeta. apply (Hquiet c1); reflexivity. }
  destruct (ctxInProgress (conn b)) eqn:Hcip.
  { rewrite Send_eq, Herr, Hcq, Hens. cbn zeta.
    destruct (ensureConnectionReadyForQuery_reads (conn b)) as (e & c' & He & Hro & _).
    rewrite He in Hens. injection Hens as -> ->.
    destruct Hro as (_ & _ & Hci & _). cbn in Hci. rewrite Hci, Hcip.
    apply (Hquiet c1); reflexivity. }
  rewrite (Send_past_checks ctx0 tx b c1 Herr Hcq Hens Hcip). cbn zeta.
  destruct (firstFault (items b)) as [e3|].
  { apply (Hquiet (setCtxInProgress true c1)); reflexivity. }
  assert (Hwrote : forall c b', conn b' = c ->
            history c = history c1 ++
              [EvWrite (wbuf (conn b) ++
                 transmission (preparedStatements (conn b)) (beginSQL tx) (items b))] \/
            (exists e, history c = history c1 ++
              [EvWrite (wbuf (conn b) ++
                 transmission (preparedStatements (conn b)) (beginSQL tx) (items b));
               EvConnDie e]) ->
            writes (newEvents (conn b) (conn b')) =
              [wbuf (conn b) ++
               transmission (preparedStatements (conn b)) (beginSQL tx) (items b)]).
  { intros c b' Hb [Hc | [e Hc]]; rewrite Hb;
      (erewrite newEvents_app; [|rewrite Hc, Hh, <- app_assoc; reflexivity]);
      reflexivity. }
  destruct (writeFault (conn b)) as [[n e4]|] eqn:Hwf.
  - cbn [fst snd].
    match goal with |- context [setConn ?c ?b0] =>
      pose proof (Hwrote c (setConn c b0) eq_refl) as Hw end.
    rewrite Hw.
    2: { destruct (fatalWriteErr n e4); [right; eexists|left]; cbn;
         rewrite <- ?app_assoc; reflexivity. }
    split; [right; reflexivity|]. cbn [sent setConn setCtx].
    split; [auto|]. intros [H|[H _]]; [exact H|discriminate].
  - cbn [fst snd].
    match goal with |- context [setSent true (setConn ?c ?b0)] =>
      pose proof (Hwrote c (setSent true (setConn c b0)) eq_refl) as Hw end.
    rewrite Hw; [|left; reflexivity].
    split; [right; reflexivity|]. cbn [sent setSent].
    split; [|reflexivity]. intros _. right. split; [reflexivity | discriminate].
Qed.

(** A Send that succeeds has passed every check and written. *)
Lemma Send_success_inv ctx0 tx b b' :
  Send ctx0 tx b = (Ret None, b') ->
  err b = None /\
  cancelQueryFault (conn b) = None /\
  (exists c1, ensureConnectionReadyForQuery (conn b) = (Ret None, c1)) /\
  ctxInProgress (conn b) = false /\
  firstFault (items b) = None /\
  writeFault (conn b) = None.
Proof.
  intros H. rewrite Send_eq in H.
  destruct (err b); [discriminate|]. cbn zeta in H.
  destruct (cancelQueryFault (conn b)); [discriminate|].
  destruct (ensureConnectionReadyForQuery (conn b)) as [r c1] eqn:Hens.
  destruct (ensureConnectionReadyForQuery_reads (conn b)) as (e & c' & He & Hro & _).
  rewrite He in Hens. injection Hens as <- <-.
  destruct Hro as (_ & _ & Hci & _ & _ & Hwf & _). cbn in Hci, Hwf.
  destruct e; [discriminate|].
  rewrite Hci in H. destruct (ctxInProgress (conn b)); [discriminate|].
  rewrite appendItems_firstFault in H.
  destruct (firstFault (items b)); [discriminate|].
  cbn [writeFault setCtxInProgress] in H. rewrite Hwf in H.
  destruct (writeFault (conn b)) as [[n e]|]; [discriminate|].
  repeat split; eauto.
Qed.

(** X9. Queue and Send compose in queue order: on a batch begun on a
    connection, queueing the items of a list one after the other and then
    sending succeeds only with one write of the steps of exactly these
    items, in the order in which they were queued. *)
Theorem queued_items_are_sent_in_order c its ctx0 tx b' :
  Send ctx0 tx (snd (QueueAll its (BeginBatch c))) = (Ret None, b') ->
  items b' = its /\
  writes (newEvents c (conn b')) =
    [wbuf c ++ transmission (preparedStatements c) (beginSQL tx) its].
Proof.
  rewrite QueueAll_items. cbn [snd]. intros H.
  destruct (Send_success_inv _ _ _ _ H) as (Herr & Hcq & (c1 & Hens) & Hcip & Hff & Hwf).
  rewrite (Send_past_checks _ _ _ c1 Herr Hcq Hens Hcip) in H. cbn zeta in H.
  rewrite Hff, Hwf in H. injection H as _ <-. cbn.
  split; [reflexivity|].
  apply ensureConnectionReadyForQuery_frame in Hens as (Hh & _).
  cbn in Hh.
  erewrite newEvents_app; [|cbn; rewrite Hh, <- app_assoc; reflexivity].
  reflexivity.
Qed.

Lemma queued_items_are_sent_in_order_witness :
  writes (newEvents (idleConn sampleAnswers)
            (conn (snd (Send background plainBegin
                          (snd (QueueAll sampleItems (BeginBatch (idleConn sampleAnswers))))))))
  = [wbuf (idleConn sampleAnswers) ++ transmission sampleCache "begin" sampleItems].
Proof.
  refine (proj2 (queued_items_are_sent_in_order (idleConn sampleAnswers) sampleItems
                   background plainBegin
                   (snd (Send background plainBegin
                           (snd (QueueAll sampleItems (BeginBatch (idleConn sampleAnswers))))))
                   _)).
  vm_compute. reflexivity.
Defined.



(** X11. A write that fails: once the checks have passed and every argument
    encodes, Send makes its one write, of the whole transmission, and
    returns the error of the write. It then reads nothing, does not raise
    the count of outstanding acknowledgements, does not mark the batch as
    sent and records no sticky error; the connection is marked dead
    exactly when the failure is fatal. *)
Theorem Send_write_failure ctx0 tx b n e :
  err b = None ->
  cancelQueryFault (conn b) = None ->
  fst (ensureConnectionReadyForQuery (conn b)) = Ret None ->
  ctxInProgress (conn b) = false ->
  firstFault (items b) = None ->
  writeFault (conn b) = Some (n, e) ->
  fst (Send ctx0 tx b) = Ret (Some e) /\
  writes (newEvents (conn b) (conn (snd (Send ctx0 tx b)))) =
    [wbuf (conn b) ++
     transmission (preparedStatements (conn b)) (beginSQL tx) (items b)] /\
  rx (conn (snd (Send ctx0 tx b))) = rx (snd (ensureConnectionReadyForQuery (conn b))) /\
  pendingReadyForQueryCount (conn (snd (Send ctx0 tx b)))
    = pendingReadyForQueryCount (snd (ensureConnectionReadyForQuery (conn b))) /\
  sent (snd (Send ctx0 tx b)) = sent b /\
  err (snd (Send ctx0 tx b)) = None /\
  alive (conn (snd (Send ctx0 tx b)))
    = (if fatalWriteErr n e then false else alive (conn b)) /\
  (EvConnDie (Some e) ∈ newEvents (conn b) (conn (snd (Send ctx0 tx b)))
   <-> fatalWriteErr n e = true).
Proof.
  intros Herr Hcq Hens Hcip Hff Hwf.
  destruct (ensureConnectionReadyForQuery (conn b)) as [r c1] eqn:Hens'.
  cbn in Hens. subst r.
  rewrite (Send_past_checks _ _ _ c1 Herr Hcq Hens' Hcip). cbn zeta.
  rewrite Hff, Hwf. cbn [fst snd].
  apply ensureConnectionReadyForQuery_frame in Hens' as (Hh & _ & _ & _ & Hal & _).
  destruct (fatalWriteErr n e); cbn.
  - erewrite newEvents_app; [|cbn; rewrite Hh, <- !app_assoc; reflexivity].
    repeat split; auto. intros _. cbn.
    apply list_elem_of_further, list_elem_of_further, list_elem_of_here.
  - erewrite newEvents_app; [|cbn; rewrite Hh, <- !app_assoc; reflexivity].
    repeat split; auto; try discriminate. intros Hin. cbn in Hin.
    absent_from_list Hin.
Qed.

Lemma Send_write_failure_witness :
  alive (conn (snd (Send background plainBegin
                      (setConn (withWriteFault 0 errTimedOut (idleConn sampleAnswers))
                               (sampleBatch sampleAnswers)))))
  = (if fatalWriteErr 0 errTimedOut then false
     else alive (conn (setConn (withWriteFault 0 errTimedOut (idleConn sampleAnswers))
                               (sampleBatch sampleAnswers)))).
Proof.
  apply (Send_write_failure background plainBegin
           (setConn (withWriteFault 0 errTimedOut (idleConn sampleAnswers))
                    (sampleBatch sampleAnswers))
           0 errTimedOut); reflexivity.
Defined.


(** *** Reading before Send, and with a cancelled context *)

Lemma execTimes_S n b :
  execTimes (S n) b =
  match ExecResults b with
  | (Ret (_, Some e), b1) => (Ret (Some e), b1)
  | (Ret (_, None), b1) => execTimes n b1
  | (Panic msg, b1) => (Panic msg, b1)
  | (OutOfFuel, b1) => (OutOfFuel, b1)
  end.
Proof.
  change (execTimes (S n) b) with
    ((let* (_, e) := ExecResults in
      match e with Some e => ret (Some e) | None => execTimes n end) b).
  unfold bind. destruct (ExecResults b) as [[[tag [e|]]| |] b1]; reflexivity.
Qed.

(** X12. Before Send has stored a context, the result-reading operations
    panic: on a batch without a sticky error whose context is nil,
    ExecResults, QueryResults and QueryRowResults panic on the nil context
    and leave the batch as it is. Close then panics too if items are
    unread, after its deferred function has run (termContext, and the
    pool's Release if the batch has a pool); with nothing unread Close
    does not panic and returns what the readiness check returns. *)
Theorem reading_before_Send_panics b :
  err b = None ->
  ctx b = None ->
  ExecResults b = (Panic nilContext, b) /\
  QueryResults b = (Panic nilContext, b) /\
  QueryRowResults b = (Panic nilContext, b) /\
  (resultsRead b < Z.of_nat (length (items b)) ->
     fst (Close b) = Panic nilContext /\
     newEvents (conn b) (conn (snd (Close b))) = [EvTermContext None] ++ releaseEvents b) /\
  (Z.of_nat (length (items b)) <= resultsRead b ->
     fst (Close b) = fst (ensureConnectionReadyForQuery (conn b))).
Proof.
  intros Herr Hctx.
  assert (HE : ExecResults b = (Panic nilContext, b))
    by (rewrite ExecResults_eq, Herr, Hctx; reflexivity).
  assert (HQ : QueryResults b = (Panic nilContext, b))
    by (rewrite QueryResults_eq, Herr, Hctx; reflexivity).
  split; [exact HE|]. split; [exact HQ|]. split.
  { unfold QueryRowResults, bind. rewrite HQ. reflexivity. }
  split.
  - intros Hk. rewrite Close_eq, Herr.
    replace (Z.to_nat (Z.of_nat (length (items b)) - resultsRead b))
      with (S (Z.to_nat (Z.of_nat (length (items b)) - resultsRead b - 1))) by lia.
    rewrite execTimes_S, HE. cbn [fst snd].
    split; [reflexivity|].
    destruct (closeDeferred_history None b) as (_ & Hh & _).
    apply newEvents_app. exact Hh.
  - intros Hk. rewrite Close_eq, Herr.
    replace (Z.to_nat (Z.of_nat (length (items b)) - resultsRead b)) with O by lia.
    change (execTimes 0 b) with (@Ret (option error) None, b).
    unfold bind, onConn.
    destruct (ensureConnectionReadyForQuery_reads (conn b)) as (e & c' & He & _).
    rewrite He. cbn [fst]. apply closeDeferred_history.
Qed.

Lemma reading_before_Send_panics_witness :
  ExecResults (sampleBatch sampleAnswers)
  = (Panic nilContext, sampleBatch sampleAnswers).
Proof.
  apply (reading_before_Send_panics (sampleBatch sampleAnswers)); reflexivity.
Defined.






(** *** What ExecResults reads *)

Lemma execLoop_S n c :
  execLoop (S n) c =
  match rxMsg c with
  | (Ret (inr e), c1) => (Ret (EmptyString, Some e), c1)
  | (Ret (inl (CommandComplete tag)), c1) => (Ret (tag, None), c1)
  | (Ret (inl msg), c1) =>
      match processContextFreeMsg msg c1 with
      | (Ret (Some e), c2) => (Ret (EmptyString, Some e), c2)
      | (Ret None, c2) => execLoop n c2
      | (Panic m, c2) => (Panic m, c2)
      | (OutOfFuel, c2) => (OutOfFuel, c2)
      end
  | (Panic m, c1) => (Panic m, c1)
  | (OutOfFuel, c1) => (OutOfFuel, c1)
  end.
Proof.
  change (execLoop (S n) c) with
    ((let* r := rxMsg in
      match r with
      | inr e => ret (EmptyString, Some e)
      | inl (CommandComplete tag) => ret (tag, None)
      | inl msg =>
          let* e := processContextFreeMsg msg in
          match e with
          | Some e => ret (EmptyString, Some e)
          | None => execLoop n
          end
      end) c).
  unfold bind. destruct (rxMsg c) as [[[msg|e]| |] c1]; try reflexivity.
  destruct msg; try reflexivity;
    destruct (processContextFreeMsg _ c1) as [[[e|]| |] c2]; reflexivity.
Qed.

Lemma absorb_setRx pre : forall l c, absorb pre (setRx l c) = setRx l (absorb pre c).
Proof.
  induction pre as [|m pre IH]; intros l c; [reflexivity|].
  destruct m; cbn [absorb]; try apply IH.
  rewrite <- IH. reflexivity.
Qed.

Lemma ready_setRx st x l c :
  setTxStatus st (setPending x (setRx l c)) = setRx l (setTxStatus st (setPending x c)).
Proof. reflexivity. Qed.

(** The loop of ExecResults passes over quiet messages. *)
Lemma execLoop_quiet pre : forall tail c fuel,
  Forall quiet pre ->
  rx c = map RxMsg pre ++ tail ->
  execLoop (length pre + fuel) c = execLoop fuel (setRx tail (absorb pre c)).
Proof.
  induction pre as [|m pre IH]; intros tail c fuel Hq Hrx.
  - cbn in Hrx |- *. rewrite <- Hrx, setRx_rx. reflexivity.
  - apply Forall_cons in Hq as [Hm Hq].
    cbn [length Nat.add]. rewrite execLoop_S. unfold rxMsg. rewrite Hrx. cbn [map app].
    destruct m; cbn in Hm; try contradiction;
      cbn [processContextFreeMsg absorb];
      (rewrite (IH tail) by (auto; reflexivity));
      cbn [pendingReadyForQueryCount setRx];
      rewrite ?ready_setRx, ?absorb_setRx; reflexivity.
Qed.

Lemma plain_quiet m : plain m -> quiet m.
Proof. destruct m; cbn; auto. Qed.

Lemma absorb_plain pre c : Forall plain pre -> absorb pre c = c.
Proof.
  induction 1 as [|m pre Hm _ IH]; [reflexivity|].
  destruct m; cbn in *; try contradiction; exact IH.
Qed.

(** ExecResults up to the message that ends its read. *)
Lemma ExecResults_ends b cx pre it rest :
  err b = None ->
  ctx b = Some cx ->
  ctxErr cx = None ->
  Forall quiet pre ->
  match it with
  | RxErr _ | RxMsg (CommandComplete _) | RxMsg (ErrorResponse _) => True
  | _ => False
  end ->
  rx (conn b) = map RxMsg pre ++ it :: rest ->
  ExecResults b =
  (let '(r, c) := execLoop 1 (setRx (it :: rest) (absorb pre (conn b))) in
   (r, setConn c (setResultsRead (wrap64 (resultsRead b + 1)) b))).
Proof.
  intros Herr Hctx Hcx Hq Hit Hrx. rewrite ExecResults_eq, Herr, Hctx, Hcx.
  replace (S (length (rx (conn b)))) with (length pre + (S (S (length rest))))%nat
    by (rewrite Hrx, length_app, length_map; cbn; lia).
  rewrite (execLoop_quiet pre (it :: rest)) by assumption.
  rewrite !execLoop_S. unfold rxMsg. cbn.
  destruct it as [[]|]; try contradiction; reflexivity.
Qed.

(** X15. ExecResults returns at the first command completion, error response
    or failed read. On a batch without a sticky error and with a live
    context, after messages that the loop passes over (each ReadyForQuery
    among them taking one off the count of outstanding acknowledgements):
    a command completion makes ExecResults return its tag; an error
    response makes it return that error; a failed read makes it return
    the read error. In each case the cursor has moved by one, the stream
    stands right behind the message that ended the read, and no sticky
    error is recorded. *)
Theorem ExecResults_reads_to_first_completion b cx pre rest :
  err b = None ->
  ctx b = Some cx ->
  ctxErr cx = None ->
  Forall quiet pre ->
  let b' := setConn (setRx rest (absorb pre (conn b)))
                    (setResultsRead (wrap64 (resultsRead b + 1)) b) in
  (forall tag,
     rx (conn b) = map RxMsg pre ++ RxMsg (CommandComplete tag) :: rest ->
     ExecResults b = (Ret (tag, None), b')) /\
  (forall e,
     rx (conn b) = map RxMsg pre ++ RxMsg (ErrorResponse e) :: rest ->
     ExecResults b = (Ret (EmptyString, Some e), b')) /\
  (forall e,
     rx (conn b) = map RxMsg pre ++ RxErr e :: rest ->
     ExecResults b = (Ret (EmptyString, Some e), b')) /\
  err b' = None.
Proof.
  intros Herr Hctx Hcx Hq b'. subst b'.
  pose proof (fun it => ExecResults_ends b cx pre it rest Herr Hctx Hcx Hq) as Hgo.
  repeat apply conj.
  - intros tag Hrx. rewrite (Hgo (RxMsg (CommandComplete tag)) I Hrx). reflexivity.
  - intros e Hrx. rewrite (Hgo (RxMsg (ErrorResponse e)) I Hrx). reflexivity.
  - intros e Hrx. rewrite (Hgo (RxErr e) I Hrx). reflexivity.
  - exact Herr.
Qed.

Lemma ExecResults_reads_to_first_completion_witness :
  ExecResults (sentSample sampleAnswers)
  = (Ret ("SELECT 1"%string, None),
     setConn (setRx [RxMsg ParseComplete; RxMsg BindComplete; RxMsg NoData;
                     RxMsg (CommandComplete "INSERT 0 1");
                     RxMsg (ReadyForQuery "T");
                     RxMsg (CommandComplete "COMMIT"); RxMsg (ReadyForQuery "I")]
                (absorb [BindComplete;
                         RowDescription [mkFieldDescription "?column?" 23];
                         DataRow ["1"%string]]
                        (conn (sentSample sampleAnswers))))
             (setResultsRead (wrap64 (resultsRead (sentSample sampleAnswers) + 1))
                             (sentSample sampleAnswers))).
Proof.
  assert (Hq : Forall quiet [BindComplete;
                             RowDescription [mkFieldDescription "?column?" 23];
                             DataRow ["1"%string]])
    by (repeat constructor).
  exact (proj1 (ExecResults_reads_to_first_completion (sentSample sampleAnswers)
                  background
                  [BindComplete; RowDescription [mkFieldDescription "?column?" 23];
                   DataRow ["1"%string]]
                  _ eq_refl eq_refl eq_refl Hq)
           "SELECT 1"%string eq_refl).
Defined.

(** *** The cursor *)

(** X16. The cursor moves before the read: on a batch without a sticky error
    and with a live context, ExecResults, QueryResults and QueryRowResults
    add one to the cursor (modulo 2^64) whatever the read then gives, and
    ExecResults records no sticky error whatever it returns. An item whose
    read failed in ExecResults therefore counts as read: when it was
    the last one, the Close that follows force-consumes nothing and goes
    straight to the readiness check. *)
Theorem cursor_moves_before_the_read b cx :
  err b = None ->
  ctx b = Some cx ->
  ctxErr cx = None ->
  resultsRead (snd (ExecResults b)) = wrap64 (resultsRead b + 1) /\
  resultsRead (snd (QueryResults b)) = wrap64 (resultsRead b + 1) /\
  resultsRead (snd (QueryRowResults b)) = wrap64 (resultsRead b + 1) /\
  err (snd (ExecResults b)) = None /\
  (Z.of_nat (length (items b)) <= wrap64 (resultsRead b + 1) ->
   Close (snd (ExecResults b))
   = (let* e := onConn ensureConnectionReadyForQuery in closeDeferred e)
       (snd (ExecResults b))).
Proof.
  intros Herr Hctx Hcx.
  assert (HE : resultsRead (snd (ExecResults b)) = wrap64 (resultsRead b + 1) /\
               err (snd (ExecResults b)) = None /\
               items (snd (ExecResults b)) = items b).
  { rewrite ExecResults_eq, Herr, Hctx, Hcx.
    destruct (execLoop _ (conn b)) as [r c]. cbn. auto. }
  assert (HQ : resultsRead (snd (QueryResults b)) = wrap64 (resultsRead b + 1)).
  { rewrite QueryResults_eq, Herr, Hctx, Hcx. cbn zeta.
    destruct (readUntilRowDescription (conn b)) as [[[fields [e|]]| |] c];
      try reflexivity.
    rewrite die_eq. cbn. rewrite Herr. reflexivity. }
  destruct HE as (HE1 & HE2 & HE3).
  split; [exact HE1|]. split; [exact HQ|]. split.
  { unfold QueryRowResults, bind.
    destruct (QueryResults b) as [[[rows e]| |] b']; exact HQ. }
  split; [exact HE2|].
  intros Hk. rewrite Close_eq, HE2, HE3, HE1.
  replace (Z.to_nat (Z.of_nat (length (items b)) - wrap64 (resultsRead b + 1)))
    with O by lia.
  reflexivity.
Qed.

Lemma cursor_moves_before_the_read_witness :
  resultsRead (snd (ExecResults (sentSample brokenAnswers)))
  = wrap64 (resultsRead (sentSample brokenAnswers) + 1).
Proof.
  apply (cursor_moves_before_the_read (sentSample brokenAnswers) background);
    reflexivity.
Defined.

(** *** QueryResults when the read fails *)




(** *** What no operation looks at, and what no operation changes *)

Lemma ExecResults_setSent v b :
  ExecResults (setSent v b) = (fst (ExecResults b), setSent v (snd (ExecResults b))).
Proof.
  rewrite !ExecResults_eq. cbn [err ctx conn resultsRead setSent].
  destruct (err b) as [e0|] eqn:Herr; [reflexivity|].
  destruct (ctx b) as [cx|]; [|reflexivity].
  destruct (ctxErr cx) as [e|].
  - rewrite !die_eq. cbn. rewrite Herr. reflexivity.
  - destruct (execLoop _ (conn b)) as [r c]. reflexivity.
Qed.

Lemma QueryResults_setSent v b :
  QueryResults (setSent v b) = (fst (QueryResults b), setSent v (snd (QueryResults b))).
Proof.
  rewrite !QueryResults_eq. cbn [err ctx conn resultsRead setSent].
  destruct (err b) as [e0|] eqn:Herr; [reflexivity|].
  destruct (ctx b) as [cx|]; [|reflexivity].
  destruct (ctxErr cx) as [e|].
  - rewrite !die_eq. cbn. rewrite Herr. reflexivity.
  - cbn zeta.
    destruct (readUntilRowDescription (conn b)) as [[[fields [e|]]| |] c];
      try reflexivity.
    rewrite !die_eq. cbn. rewrite Herr. reflexivity.
Qed.

Lemma execTimes_setSent v n : forall b,
  execTimes n (setSent v b) = (fst (execTimes n b), setSent v (snd (execTimes n b))).
Proof.
  induction n as [|n IH]; intros b; [reflexivity|].
  rewrite !execTimes_S, ExecResults_setSent.
  destruct (ExecResults b) as [[[tag [e|]]| |] b1]; cbn [fst snd]; try reflexivity.
  apply IH.
Qed.

(** X18. The sent flag is written by Send and read by nothing: whether a batch
    is marked as sent makes no difference to what ExecResults,
    QueryResults, QueryRowResults, Close, [die] and Send return, nor to
    what they do to the batch and its connection. *)
Theorem sent_is_never_read v b :
  ExecResults (setSent v b) = (fst (ExecResults b), setSent v (snd (ExecResults b))) /\
  QueryResults (setSent v b) = (fst (QueryResults b), setSent v (snd (QueryResults b))) /\
  QueryRowResults (setSent v b)
    = (fst (QueryRowResults b), setSent v (snd (QueryRowResults b))) /\
  Close (setSent v b) = (fst (Close b), setSent v (snd (Close b))) /\
  (forall e, die e (setSent v b) = (fst (die e b), setSent v (snd (die e b)))) /\
  (forall ctx0 tx,
     fst (Send ctx0 tx (setSent v b)) = fst (Send ctx0 tx b) /\
     setSent true (snd (Send ctx0 tx (setSent v b)))
       = setSent true (snd (Send ctx0 tx b))).
Proof.
  repeat apply conj.
  - apply ExecResults_setSent.
  - apply QueryResults_setSent.
  - unfold QueryRowResults, bind. rewrite QueryResults_setSent.
    destruct (QueryResults b) as [[[rows e]| |] b1]; reflexivity.
  - rewrite !Close_eq. cbn [err items resultsRead setSent].
    destruct (err b); [reflexivity|].
    rewrite execTimes_setSent.
    destruct (execTimes _ b) as [[[e|]| |] b1]; cbn [fst snd]; try reflexivity.
    + rewrite !closeDeferred_eq. reflexivity.
    + unfold bind, onConn. cbn [conn setSent].
      destruct (ensureConnectionReadyForQuery (conn b1)) as [[e| |] c]; try reflexivity.
      rewrite !closeDeferred_eq. reflexivity.
    + rewrite !closeDeferred_eq. reflexivity.
  - intros e. rewrite !die_eq. cbn. destruct (err b); reflexivity.
  - intros ctx0 tx. rewrite !Send_eq. cbn [err conn items setSent].
    destruct (err b); [split; reflexivity|]. cbn zeta.
    destruct (cancelQueryFault (conn b)); [split; reflexivity|].
    destruct (ensureConnectionReadyForQuery (conn b)) as [[[e|]| |] c1];
      try (split; reflexivity).
    destruct (ctxInProgress c1); [split; reflexivity|].
    destruct (appendItems _ _ (items b)) as [buf [e|]]; [split; reflexivity|].
    destruct (writeFault _) as [[n e]|]; split; reflexivity.
Qed.

(** X19. Only Queue changes the queue, and nothing changes the pool of a
    batch: Send, ExecResults, QueryResults, QueryRowResults, Close and
    [die] leave the queued items and the pool as they are; Queue adds its
    item at the end of the queue and leaves everything else, the
    connection included, as it is, whether or not the batch has been sent
    or has a sticky error. *)
Theorem queue_and_pool_are_kept b :
  (forall ctx0 tx,
     items (snd (Send ctx0 tx b)) = items b /\
     connPool (snd (Send ctx0 tx b)) = connPool b) /\
  (items (snd (ExecResults b)) = items b /\
   connPool (snd (ExecResults b)) = connPool b) /\
  (items (snd (QueryResults b)) = items b /\
   connPool (snd (QueryResults b)) = connPool b) /\
  (items (snd (QueryRowResults b)) = items b /\
   connPool (snd (QueryRowResults b)) = connPool b) /\
  (items (snd (Close b)) = items b /\
   connPool (snd (Close b)) = connPool b) /\
  (forall e,
     items (snd (die e b)) = items b /\
     connPool (snd (die e b)) = connPool b) /\
  (forall sql args oids formats,
     Queue sql args oids formats b
     = (Ret tt, setItems (items b ++ [mkBatchItem sql args oids formats]) b)).
Proof.
  assert (HD : forall e b0, items (snd (die e b0)) = items b0 /\
                            connPool (snd (die e b0)) = connPool b0).
  { intros e b0. rewrite die_eq. destruct (err b0); split; reflexivity. }
  assert (HQ : items (snd (QueryResults b)) = items b /\
               connPool (snd (QueryResults b)) = connPool b).
  { rewrite QueryResults_eq.
    destruct (err b); [split; reflexivity|].
    destruct (ctx b) as [cx|]; [|split; reflexivity].
    destruct (ctxErr cx); [apply HD|]. cbn zeta.
    destruct (readUntilRowDescription (conn b)) as [[[fields [e|]]| |] c];
      try (split; reflexivity).
    cbn [snd]. apply (HD None (setConn c (setResultsRead _ b))). }
  repeat apply conj; try apply HD; try apply HQ.
  - intros ctx0 tx. rewrite Send_eq.
    destruct (err b); [split; reflexivity|]. cbn zeta.
    destruct (cancelQueryFault (conn b)); [split; reflexivity|].
    destruct (ensureConnectionReadyForQuery (conn b)) as [[[e|]| |] c1];
      try (split; reflexivity).
    destruct (ctxInProgress c1); [split; reflexivity|].
    destruct (appendItems _ _ (items b)) as [buf [e|]]; [split; reflexivity|].
    destruct (writeFault _) as [[n e]|]; split; reflexivity.
  - destruct (ExecResults_frame b) as (r & b' & He & _ & _ & Hi & _).
    rewrite He. exact Hi.
  - destruct (ExecResults_frame b) as (r & b' & He & _ & Hp & _).
    rewrite He. exact Hp.
  - unfold QueryRowResults, bind.
    destruct (QueryResults b) as [[[rows e]| |] b1]; apply HQ.
  - unfold QueryRowResults, bind.
    destruct (QueryResults b) as [[[rows e]| |] b1]; apply HQ.
  - rewrite Close_eq. destruct (err b); [reflexivity|].
    destruct (execTimes_frame (Z.to_nat (Z.of_nat (length (items b)) - resultsRead b)) b)
      as (r & b1 & Hn & _ & _ & Hi & _).
    rewrite Hn. destruct r as [[e|]| |]; rewrite ?closeDeferred_eq; try exact Hi.
    unfold bind, onConn.
    destruct (ensureConnectionReadyForQuery (conn b1)) as [[e| |] c]; try exact Hi.
    rewrite closeDeferred_eq. exact Hi.
  - rewrite Close_eq. destruct (err b); [reflexivity|].
    destruct (execTimes_frame (Z.to_nat (Z.of_nat (length (items b)) - resultsRead b)) b)
      as (r & b1 & Hn & _ & Hp & _).
    rewrite Hn. destruct r as [[e|]| |]; rewrite ?closeDeferred_eq; try exact Hp.
    unfold bind, onConn.
    destruct (ensureConnectionReadyForQuery (conn b1)) as [[e| |] c]; try exact Hp.
    rewrite closeDeferred_eq. exact Hp.
  - intros e. apply HD.
  - reflexivity.
Qed.


(** *** A whole batch *)

(** With no acknowledgement outstanding the readiness check reads
    nothing. *)
Lemma ensure_idle c :
  pendingReadyForQueryCount c <= 0 ->
  ensureConnectionReadyForQuery c = (Ret None, logEvent EvEnsureReady c).
Proof.
  intros H. unfold ensureConnectionReadyForQuery, bind, modify, get.
  cbn [ensureLoop]. unfold bind, get. cbn [pendingReadyForQueryCount logEvent].
  apply Z.ltb_ge in H. rewrite H. reflexivity.
Qed.

(** With the acknowledgements of Sync and of commit outstanding and their
    messages next on the stream, the readiness check reads exactly these
    and leaves the connection idle. *)
Lemma ensure_drains c st1 tag st2 :
  pendingReadyForQueryCount c = 2 ->
  rx c = [RxMsg (ReadyForQuery st1); RxMsg (CommandComplete tag);
          RxMsg (ReadyForQuery st2)] ->
  exists c', ensureConnectionReadyForQuery c = (Ret None, c') /\
    rx c' = [] /\ pendingReadyForQueryCount c' = 0 /\ txStatus c' = st2 /\
    alive c' = alive c /\ history c' = history c ++ [EvEnsureReady].
Proof.
  intros Hp Hrx. destruct c as [al ps pend st cip wb cq wf r h].
  cbn in Hp, Hrx. subst.
  exists (mkConn al ps 0 st2 cip wb cq wf [] (h ++ [EvEnsureReady])).
  split; [vm_compute; reflexivity | repeat split].
Qed.

Lemma execTags_S n b :
  execTags (S n) b =
  match ExecResults b with
  | (Ret (_, Some e), b1) => (Ret ([], Some e), b1)
  | (Ret (tag, None), b1) =>
      match execTags n b1 with
      | (Ret (tags, e'), b2) => (Ret (tag :: tags, e'), b2)
      | (Panic msg, b2) => (Panic msg, b2)
      | (OutOfFuel, b2) => (OutOfFuel, b2)
      end
  | (Panic msg, b1) => (Panic msg, b1)
  | (OutOfFuel, b1) => (OutOfFuel, b1)
  end.
Proof.
  cbn [execTags]. unfold bind.
  destruct (ExecResults b) as [[[tag [e|]]| |] b1]; try reflexivity.
  destruct (execTags n b1) as [[[tags e']| |] b2]; reflexivity.
Qed.

(** Close forces the reads as a caller collecting the tags would make
    them. *)
Lemma execTimes_execTags n : forall b,
  execTimes n b =
  (match fst (execTags n b) with
   | Ret (_, e) => Ret e
   | Panic msg => Panic msg
   | OutOfFuel => OutOfFuel
   end, snd (execTags n b)).
Proof.
  induction n as [|n IH]; intros b; [reflexivity|].
  rewrite execTimes_S, execTags_S.
  destruct (ExecResults b) as [[[tag [e|]]| |] b1]; try reflexivity.
  rewrite IH. destruct (execTags n b1) as [[[tags e']| |] b2]; reflexivity.
Qed.

Lemma advance_small n : forall k,
  - 2 ^ 63 <= k -> k + Z.of_nat n <= maxInt64 -> advance n k = k + Z.of_nat n.
Proof.
  induction n as [|n IH]; intros k Hlo Hhi; cbn [advance]; [lia|].
  rewrite wrap64_small by lia. rewrite IH; lia.
Qed.

(** Reading the answers of items that complete, one ExecResults after the
    other. *)
Lemma execTags_answers answers : forall b cx tail,
  err b = None ->
  ctx b = Some cx ->
  ctxErr cx = None ->
  Forall (fun a => Forall plain (fst a)) answers ->
  rx (conn b) = concat (map itemAnswer answers) ++ tail ->
  execTags (length answers) b =
  (Ret (map snd answers, None),
   setConn (setRx tail (conn b))
           (setResultsRead (advance (length answers) (resultsRead b)) b)).
Proof.
  induction answers as [|[pre tag] answers IH]; intros b cx tail Herr Hctx Hcx Hpl Hrx.
  - cbn in Hrx |- *. unfold ret. rewrite <- Hrx, setRx_rx. destruct b; reflexivity.
  - apply Forall_cons in Hpl as [Hpre Hpl]. cbn [fst] in Hpre.
    cbn [map concat] in Hrx. unfold itemAnswer at 1 in Hrx. cbn [fst snd] in Hrx.
    rewrite <- !app_assoc in Hrx. cbn [app] in Hrx.
    cbn [length]. rewrite execTags_S.
    assert (Hq : Forall quiet pre)
      by (eapply Forall_impl; [exact Hpre | apply plain_quiet]).
    rewrite (ExecResults_ends b cx pre (RxMsg (CommandComplete tag))
               (concat (map itemAnswer answers) ++ tail) Herr Hctx Hcx Hq I Hrx).
    rewrite absorb_plain by exact Hpre.
    rewrite execLoop_S. unfold rxMsg. cbn [rx setRx].
    rewrite (IH _ cx tail) by (auto; reflexivity).
    reflexivity.
Qed.

(** X20. A whole batch. A batch without a sticky error is sent on an idle
    connection under a live context; every argument encodes and the write
    succeeds. The server answers begin, then each item with messages that
    end in its command completion, then Sync and commit. Then Send
    succeeds; ExecResults called once per item returns the tags of the
    items in queue order, leaving the cursor at the number of items; and
    Close, after these reads or in their place, returns no error, having
    read the stream to its end: no acknowledgement is outstanding, the
    transaction status is the one the server sent last, and the calls were
    the readiness check, the one write, the readiness check, termContext
    and, if the batch has a pool, its Release. *)
Theorem batch_round_trip ctx0 tx b toBegin st0 answers st1 commitTag st2 :
  err b = None ->
  cancelQueryFault (conn b) = None ->
  pendingReadyForQueryCount (conn b) = 0 ->
  ctxInProgress (conn b) = false ->
  firstFault (items b) = None ->
  writeFault (conn b) = None ->
  ctxErr ctx0 = None ->
  resultsRead b = 0 ->
  length answers = length (items b) ->
  Z.of_nat (length (items b)) <= maxInt64 ->
  Forall passedOver toBegin ->
  Forall (fun a => Forall plain (fst a)) answers ->
  rx (conn b) = batchAnswers toBegin st0 answers st1 commitTag st2 ->
  fst (Send ctx0 tx b) = Ret None /\
  fst (execTags (length answers) (snd (Send ctx0 tx b)))
    = Ret (map snd answers, None) /\
  resultsRead (snd (execTags (length answers) (snd (Send ctx0 tx b))))
    = Z.of_nat (length (items b)) /\
  Close (snd (Send ctx0 tx b))
    = Close (snd (execTags (length answers) (snd (Send ctx0 tx b)))) /\
  fst (Close (snd (Send ctx0 tx b))) = Ret None /\
  rx (conn (snd (Close (snd (Send ctx0 tx b))))) = [] /\
  pendingReadyForQueryCount (conn (snd (Close (snd (Send ctx0 tx b))))) = 0 /\
  txStatus (conn (snd (Close (snd (Send ctx0 tx b))))) = st2 /\
  alive (conn (snd (Close (snd (Send ctx0 tx b))))) = alive (conn b) /\
  newEvents (conn b) (conn (snd (Close (snd (Send ctx0 tx b))))) =
    [EvEnsureReady;
     EvWrite (wbuf (conn b) ++
              transmission (preparedStatements (conn b)) (beginSQL tx) (items b));
     EvEnsureReady; EvTermContext None] ++ releaseEvents b.
Proof.
  intros Herr Hcq Hpend Hcip Hff Hwf Hlive Hk Hlen HN HtoBegin Hplain Hrx.
  (* Send *)
  assert (Hens : ensureConnectionReadyForQuery (conn b)
                 = (Ret None, logEvent EvEnsureReady (conn b)))
    by (apply ensure_idle; lia).
  pose proof (Send_past_checks ctx0 tx b _ Herr Hcq Hens Hcip) as HSend.
  cbn zeta in HSend. rewrite Hff, Hwf in HSend.
  cbn [rx setPending logEvent setCtxInProgress pendingReadyForQueryCount] in HSend.
  rewrite Hrx, Hpend in HSend. unfold batchAnswers in HSend.
  assert (Hcons : consumeUntilReady
            (toBegin ++ [RxMsg (ReadyForQuery st0)] ++
             concat (map itemAnswer answers) ++
             [RxMsg (ReadyForQuery st1); RxMsg (CommandComplete commitTag);
              RxMsg (ReadyForQuery st2)])
          = (None, concat (map itemAnswer answers) ++
             [RxMsg (ReadyForQuery st1); RxMsg (CommandComplete commitTag);
              RxMsg (ReadyForQuery st2)])).
  { apply consumeUntilReady_success. exists toBegin, st0. split; [reflexivity | exact HtoBegin]. }
  rewrite Hcons in HSend. cbn [fst snd] in HSend.
  change (wrap64 (0 + 2)) with 2 in HSend.
  rewrite HSend. cbn [fst snd]. split; [reflexivity|].
  (* the reads *)
  match type of HSend with _ = (_, ?B1) => set (b1 := B1) end.
  assert (Htags := execTags_answers answers b1 ctx0
            [RxMsg (ReadyForQuery st1); RxMsg (CommandComplete commitTag);
             RxMsg (ReadyForQuery st2)] Herr eq_refl Hlive Hplain eq_refl).
  assert (Hadv : advance (length answers) (resultsRead b1) = Z.of_nat (length (items b))).
  { subst b1. cbn [resultsRead setSent setConn setCtx]. rewrite Hk.
    rewrite advance_small; unfold maxInt64 in *; lia. }
  rewrite Hadv in Htags.
  rewrite Htags. cbn [fst snd].
  split; [reflexivity|]. split; [reflexivity|].
  (* Close *)
  match type of Htags with _ = (_, ?B2) => set (b2 := B2) in * end.
  assert (HC1 : Close b1 = Close b2).
  { rewrite (Close_eq b1).
    replace (Z.to_nat (Z.of_nat (length (items b1)) - resultsRead b1))
      with (length answers)
      by (subst b1; cbn [items resultsRead setSent setConn setCtx]; lia).
    rewrite execTimes_execTags, Htags. cbn [fst snd].
    rewrite (Close_eq b2).
    replace (Z.to_nat (Z.of_nat (length (items b2)) - resultsRead b2)) with O
      by (subst b2 b1; cbn [items resultsRead setSent setConn setCtx setResultsRead]; lia).
    change (err b1) with (err b). change (err b2) with (err b). rewrite Herr.
    change (execTimes 0 b2) with (@Ret (option error) None, b2).
    reflexivity. }
  split; [exact HC1|]. rewrite HC1.
  rewrite (Close_eq b2).
  replace (Z.to_nat (Z.of_nat (length (items b2)) - resultsRead b2)) with O
    by (subst b2 b1; cbn [items resultsRead setSent setConn setCtx setResultsRead]; lia).
  change (err b2) with (err b). rewrite Herr.
  change (execTimes 0 b2) with (@Ret (option error) None, b2).
  unfold bind, onConn.
  destruct (ensure_drains (conn b2) st1 commitTag st2 eq_refl eq_refl)
    as (c' & Hdr & Hrx' & Hp' & Hst' & Hal' & Hh').
  rewrite Hdr.
  destruct (closeDeferred_history None (setConn c' b2)) as (Hf & Hhd & _).
  rewrite closeDeferred_eq in *. cbn [fst snd] in *.
  split; [reflexivity|].
  change (connPool (setConn c' b2)) with (connPool b) in *.
  destruct (connPool b) eqn:Hpool; cbn [conn setConn rx pendingReadyForQueryCount
    txStatus alive logEvent setCtxInProgress];
    rewrite Hrx', Hp', Hst', Hal';
    (do 4 (split; [reflexivity|]));
    apply newEvents_app; cbn [conn setConn] in Hhd; rewrite Hhd;
    cbn [conn setConn]; rewrite Hh'; subst b2 b1;
    cbn [conn setConn setSent setCtx setResultsRead history setRx setPending
         logEvent setCtxInProgress];
    unfold releaseEvents; cbn [connPool setConn setSent setCtx setResultsRead];
    rewrite ?Hpool; rewrite <- !app_assoc; reflexivity.
Qed.

Lemma batch_round_trip_witness :
  fst (execTags 2 (snd (Send background plainBegin (sampleBatch sampleAnswers))))
  = Ret (["SELECT 1"; "INSERT 0 1"]%string, None) /\
  fst (Close (snd (Send background plainBegin (sampleBatch sampleAnswers)))) = Ret None.
Proof.
  assert (H1 : Forall passedOver [RxMsg (CommandComplete "BEGIN")])
    by (repeat constructor).
  assert (H2 : Forall (fun a : list BackendMessage * CommandTag => Forall plain (fst a))
                 [([BindComplete; RowDescription [mkFieldDescription "?column?" 23];
                    DataRow ["1"%string]], "SELECT 1"%string);
                  ([ParseComplete; BindComplete; NoData], "INSERT 0 1"%string)])
    by (repeat constructor).
  assert (H3 : Z.of_nat (length (items (sampleBatch sampleAnswers))) <= maxInt64)
    by (vm_compute; discriminate).
  pose proof (batch_round_trip background plainBegin (sampleBatch sampleAnswers)
                [RxMsg (CommandComplete "BEGIN")] "T"
                [([BindComplete; RowDescription [mkFieldDescription "?column?" 23];
                   DataRow ["1"%string]], "SELECT 1"%string);
                 ([ParseComplete; BindComplete; NoData], "INSERT 0 1"%string)]
                "T" "COMMIT" "I"
                eq_refl eq_refl eq_refl eq_refl eq_refl eq_refl eq_refl eq_refl eq_refl
                H3 H1 H2 eq_refl) as (_ & Htags & _ & _ & Hclose & _).
  exact (conj Htags Hclose).
Defined.

End BatchExtra.
